(** * OatQuickMethodHeader: the record preceding a compiled method's code

    Shallow embedding of [runtime/oat_quick_method_header.h], and of the
    memory-size option parser of [src/runtime.cc].

    - [uint32_t] fields are [Z] values in [0, 2^32).
    - [uintptr_t] values and pointers are [Z] values in
      [0, 2^kBitsPerIntPtrT); arithmetic on them is reduced modulo
      [2^kBitsPerIntPtrT] by [wrap].
    - A method that can hit a failed [CHECK]/[DCHECK] returns a
      [Result]: either [Returns v] or [Aborts] (the process is gone,
      no value is produced).
    - The only mutating method, [SetHasShouldDeoptimizeFlag], returns
      the updated header. *)

From Stdlib Require Import ZArith Bool Lia.
From Stdlib Require Import List Ascii String.
From Stdlib Require Import DecimalString DecimalPos DecimalN.

Local Open Scope Z_scope.
Local Open Scope bool_scope.

(** ** Fatal checks as an error monad *)

Inductive Result (A : Type) : Type :=
| Returns (a : A)
| Aborts.

Arguments Returns {A} a.
Arguments Aborts {A}.

Definition bind {A B : Type} (m : Result A) (k : A -> Result B) : Result B :=
  match m with
  | Returns a => k a
  | Aborts => Aborts
  end.

Notation "x <- m ;; k" := (bind m (fun x => k))
  (at level 61, m at next level, right associativity).
Notation "m ;;; k" := (bind m (fun _ => k))
  (at level 61, right associativity).

(** Modelled from the spec: the [CHECK] macro is not among the sources.
    It is the release-mode contract check: [cond] is evaluated in every
    build and the process aborts when it is false (or when evaluating it
    aborts). *)
Definition CHECK (cond : Result bool) : Result unit :=
  b <- cond ;; if b then Returns tt else Aborts.

(** ** Instruction sets *)

(** Modelled from the spec: [arch/instruction_set.h] is not among the
    sources.  The header names [kArm] and [kThumb2]; the other members are
    the remaining architectures of the closed set the spec speaks of. *)
Inductive InstructionSet : Type :=
| kNone | kArm | kArm64 | kThumb2 | kX86 | kX86_64 | kMips | kMips64.

Definition InstructionSet_eqb (a b : InstructionSet) : bool :=
  match a, b with
  | kNone, kNone | kArm, kArm | kArm64, kArm64 | kThumb2, kThumb2
  | kX86, kX86 | kX86_64, kX86_64 | kMips, kMips | kMips64, kMips64 => true
  | _, _ => false
  end.

(** ** The header record *)

(** [header_address] is the [this] pointer; [code_] is the zero-length
    trailing array, whose address is derived from it. *)
Record OatQuickMethodHeader : Type := mkHeader {
  header_address : Z;
  vmap_table_offset_ : Z;
  code_size_ : Z
}.

Definition kShouldDeoptimizeMask : Z := 0x80000000.
(** [~kShouldDeoptimizeMask] on [uint32_t]. *)
Definition kCodeSizeMask : Z := Z.lxor kShouldDeoptimizeMask 0xFFFFFFFF.

Definition uint32_max : Z := 0xFFFFFFFF.

(** [OFFSETOF_MEMBER(OatQuickMethodHeader, code_)]: the struct is
    [PACKED(4)] and [code_] follows two [uint32_t] fields. *)
Definition kCodeOffset : Z := 4 + 4.

(** Alignment the [PACKED(4)] attribute gives to every header object. *)
Definition kHeaderAlignment : Z := 4.

Definition nullptr : Z := 0.

(** Modelled from the spec: [IsAlignedParam] is not among the sources.
    [x] satisfies the alignment [n], a power of two, when its low bits are
    clear: [(x & (n - 1)) == 0]. *)
Definition IsAlignedParam (x n : Z) : bool := Z.land x (n - 1) =? 0.

Definition is_uint32 (x : Z) : bool := (0 <=? x) && (x <=? uint32_max).

(** Offsets of the two stored fields inside the [PACKED(4)] record, in
    declaration order. *)
Definition kVmapTableOffsetFieldOffset : Z := 0.
Definition kCodeSizeFieldOffset : Z := 4.

(** Modelled from the spec: [quick/quick_method_frame_info.h] is not among
    the sources.  The derived frame description: frame size in bytes and
    the two register spill masks. *)
Record QuickMethodFrameInfo : Type := mkFrameInfo {
  frame_size_in_bytes_ : Z;
  core_spill_mask_ : Z;
  fp_spill_mask_ : Z
}.

Definition FrameSizeInBytes (info : QuickMethodFrameInfo) : Z :=
  frame_size_in_bytes_ info.

(** ** Methods that need no platform parameter *)

Definition GetCodeSize (h : OatQuickMethodHeader) : Result Z :=
  CHECK (Returns (negb (code_size_ h =? 0xFFFFFFFF))) ;;;
  Returns (Z.land (code_size_ h) kCodeSizeMask).

Definition IsOptimized (h : OatQuickMethodHeader) : Result bool :=
  s <- GetCodeSize h ;;
  Returns (negb (s =? 0) && negb (vmap_table_offset_ h =? 0)).

Definition GetVmapTableOffset (h : OatQuickMethodHeader) : Z :=
  vmap_table_offset_ h.

Definition SetVmapTableOffset (h : OatQuickMethodHeader) (offset : Z)
  : OatQuickMethodHeader :=
  mkHeader (header_address h) offset (code_size_ h).

Definition HasShouldDeoptimizeFlag (h : OatQuickMethodHeader) : bool :=
  negb (Z.land (code_size_ h) kShouldDeoptimizeMask =? 0).

(** The header has no method that clears the size bits; this is the
    operation [code_size_ &= ~kCodeSizeMask] on the field itself. *)
Definition clear_code_size_bits (h : OatQuickMethodHeader)
  : OatQuickMethodHeader :=
  mkHeader (header_address h) (vmap_table_offset_ h)
           (Z.land (code_size_ h) (Z.lxor kCodeSizeMask 0xFFFFFFFF)).

Section Platform.

(** The compile-time configuration the header is built against.  The
    header's [static_assert]s exclude [kThumb2]; no result below needs
    that. *)
Variable kRuntimeISA : InstructionSet.
(** Width of [uintptr_t] in bits. *)
Variable kBitsPerIntPtrT : Z.
(** Whether [DCHECK]s are compiled in (debug build) or out (release). *)
Variable kEnableDChecks : bool.
(** [GetInstructionSetAlignment] of [arch/instruction_set.h], the minimum
    code alignment of each instruction set. *)
Variable GetInstructionSetAlignment : InstructionSet -> Z.
(** [kStackAlignment] of [base/globals.h], the platform stack alignment. *)
Variable kStackAlignment : Z.
(** [CodeInfo::DecodeFrameInfo] of [stack_map.h], the external decoder of
    the blob found at an address. *)
Variable DecodeFrameInfo : Z -> QuickMethodFrameInfo.
(** Width of [size_t] (and of [unsigned long]) in bits. *)
Variable kBitsPerSizeT : Z.

Definition wrap (x : Z) : Z := x mod 2 ^ kBitsPerIntPtrT.

Definition is_uintptr (x : Z) : bool :=
  (0 <=? x) && (x <? 2 ^ kBitsPerIntPtrT).

(** Modelled from the spec: the [DCHECK] macro is not among the sources.
    It is the debug-build-only assertion layer: [CHECK(cond)] when DCHECKs
    are enabled; otherwise the condition is not even evaluated. *)
Definition DCHECK (cond : Result bool) : Result unit :=
  if kEnableDChecks then CHECK cond else Returns tt.

(** A header object: 4-aligned address in pointer range, [uint32_t]
    fields. *)
Definition header_wf (h : OatQuickMethodHeader) : bool :=
  is_uintptr (header_address h)
  && IsAlignedParam (header_address h) kHeaderAlignment
  && is_uint32 (vmap_table_offset_ h)
  && is_uint32 (code_size_ h).

(** Address of the first code byte. *)
Definition code_ (h : OatQuickMethodHeader) : Z :=
  wrap (header_address h + kCodeOffset).

Definition GetCode (h : OatQuickMethodHeader) : Z := code_ h.

(** Modelled from the spec: [EntryPointToCodePointer] is declared outside
    the sources; it strips the low tag bit of an entry point
    ([code &= ~0x1] on [uintptr_t]). *)
Definition EntryPointToCodePointer (entry_point : Z) : Z :=
  Z.land entry_point (wrap (Z.lnot 1)).

(** Returns the address of the header that precedes [code_ptr]. *)
Definition FromCodePointer (code_ptr : Z) : Result Z :=
  let code := code_ptr in
  let header := wrap (code - kCodeOffset) in
  DCHECK (Returns
    (IsAlignedParam code (GetInstructionSetAlignment kRuntimeISA)
     || IsAlignedParam header (GetInstructionSetAlignment kRuntimeISA))) ;;;
  Returns header.

Definition FromEntryPoint (entry_point : Z) : Result Z :=
  FromCodePointer (EntryPointToCodePointer entry_point).

Definition GetEntryPoint (h : OatQuickMethodHeader) : Z :=
  if InstructionSet_eqb kRuntimeISA kArm
  then Z.lor (code_ h) 1
  else code_ h.

Definition NativeQuickPcOffset (h : OatQuickMethodHeader) (pc : Z) : Z :=
  wrap (pc - GetEntryPoint h).

(** The two overloads share one body. *)
Definition GetOptimizedCodeInfoPtr_const (h : OatQuickMethodHeader)
  : Result Z :=
  DCHECK (IsOptimized h) ;;;
  Returns (wrap (code_ h - vmap_table_offset_ h)).

Definition GetOptimizedCodeInfoPtr (h : OatQuickMethodHeader) : Result Z :=
  DCHECK (IsOptimized h) ;;;
  Returns (wrap (code_ h - vmap_table_offset_ h)).

Definition GetVmapTable (h : OatQuickMethodHeader) : Result Z :=
  CHECK (b <- IsOptimized h ;; Returns (negb b)) ;;;
  Returns (if vmap_table_offset_ h =? 0
           then nullptr
           else wrap (code_ h - vmap_table_offset_ h)).

(** [a && b] with [b] fallible: [b] is evaluated only when [a] holds. *)
Definition Contains (h : OatQuickMethodHeader) (pc : Z) : Result bool :=
  let code_start := code_ h in
  let code_start :=
    if InstructionSet_eqb kRuntimeISA kArm
    then wrap (code_start + 1)
    else code_start in
  if code_start <=? pc
  then s <- GetCodeSize h ;; Returns (pc <=? wrap (code_start + s))
  else Returns false.

(** The start address [Contains] compares against. *)
Definition adjusted_code_start (h : OatQuickMethodHeader) : Z :=
  if InstructionSet_eqb kRuntimeISA kArm
  then wrap (code_ h + 1)
  else code_ h.

Definition SetHasShouldDeoptimizeFlag (h : OatQuickMethodHeader)
  : Result OatQuickMethodHeader :=
  DCHECK (Returns (Z.land (code_size_ h) kShouldDeoptimizeMask =? 0)) ;;;
  Returns (mkHeader (header_address h) (vmap_table_offset_ h)
                    (Z.lor (code_size_ h) kShouldDeoptimizeMask)).

(** Addresses of the two stored fields. *)
Definition GetCodeSizeAddr (h : OatQuickMethodHeader) : Z :=
  wrap (header_address h + kCodeSizeFieldOffset).

Definition GetVmapTableOffsetAddr (h : OatQuickMethodHeader) : Z :=
  wrap (header_address h + kVmapTableOffsetFieldOffset).

(** [GetFrameInfo] is [const], so it goes through the immutable overload
    of the blob accessor. *)
Definition GetFrameInfo (h : OatQuickMethodHeader)
  : Result QuickMethodFrameInfo :=
  DCHECK (IsOptimized h) ;;;
  blob <- GetOptimizedCodeInfoPtr_const h ;;
  Returns (DecodeFrameInfo blob).

(** [GetFrameSizeInBytes<kCheckFrameSize>]; [DCHECK_ALIGNED(x, n)] is
    [DCHECK(IsAligned<n>(x))]. *)
Definition GetFrameSizeInBytes (kCheckFrameSize : bool)
    (h : OatQuickMethodHeader) : Result Z :=
  info <- GetFrameInfo h ;;
  let result := FrameSizeInBytes info in
  (if kCheckFrameSize
   then DCHECK (Returns (IsAlignedParam result kStackAlignment))
   else Returns tt) ;;;
  Returns result.

(** ** [runtime.cc]: memory-size options *)

(** The terminator of a C string. *)
Definition NUL : ascii := Ascii.zero.

(** [*s] and [s + 1] on a C string held as its characters: reading at the
    end yields the terminator.  The parser never steps over a terminator,
    so characters after an embedded [NUL] are never looked at. *)
Definition deref (s : string) : ascii :=
  match s with
  | EmptyString => NUL
  | String c _ => c
  end.

Definition advance (s : string) : string :=
  match s with
  | EmptyString => EmptyString
  | String _ rest => rest
  end.

(** [isdigit] of the C library, in the C locale. *)
Definition isdigit (c : ascii) : bool :=
  (48 <=? Z.of_N (N_of_ascii c)) && (Z.of_N (N_of_ascii c) <=? 57).

Definition digit_value (c : ascii) : Z := Z.of_N (N_of_ascii c) - 48.

(** [std::numeric_limits<size_t>::max()]. *)
Definition SIZE_MAX : Z := 2 ^ kBitsPerSizeT - 1.

(** The digit loop of [strtoul] in base 10: the value read so far and the
    place where reading stopped. *)
Fixpoint scan_digits (s : string) (acc : Z) : Z * string :=
  match s with
  | String c rest =>
      if isdigit c
      then scan_digits rest (acc * 10 + digit_value c)
      else (acc, s)
  | EmptyString => (acc, s)
  end.

(** [strtoul(s, &end, 10)] of the C library on a string that starts with
    a digit, the only way the parser calls it (so the optional white space
    and sign never occur): every digit is consumed, and a value that does
    not fit is replaced by [ULONG_MAX]. *)
Definition strtoul (s : string) : Z * string :=
  let '(value, rest) := scan_digits s 0 in
  (Z.min value SIZE_MAX, rest).

(** [KB], [MB] and [GB] of [globals.h]: the kilobyte, megabyte and
    gigabyte the comment of [ParseMemoryOption] speaks of. *)
Definition KB : Z := 1024.
Definition MB : Z := KB * KB.
Definition GB : Z := KB * KB * KB.

(** The multiplier selected by the character after the number; [None]
    is the early [return 0] on an unknown character. *)
Definition multiplier (c : ascii) : option Z :=
  if Ascii.eqb c NUL then Some 1
  else if Ascii.eqb c "k" || Ascii.eqb c "K" then Some KB
  else if Ascii.eqb c "m" || Ascii.eqb c "M" then Some MB
  else if Ascii.eqb c "g" || Ascii.eqb c "G" then Some GB
  else None.

(** [s2] and [s] point into the same string, [s2] at or after [s]; they
    are different pointers exactly when something was consumed.  A [None]
    in [scaled] is an early [return 0].  The callers pass [div = 1024] or
    [div = 1]; with [div = 0] the C code divides by zero at [val % div],
    so the value computed here stands for the code only when [0 < div]. *)
Definition ParseMemoryOption (s : string) (div : Z) : Z :=
  if isdigit (deref s) then
    let '(val, s2) := strtoul s in
    if negb (Nat.eqb (String.length s2) (String.length s)) then
      let scaled :=
        if negb (Ascii.eqb (deref s2) NUL) then
          let c := deref s2 in
          let s2 := advance s2 in
          if Ascii.eqb (deref s2) NUL then
            match multiplier c with
            | Some mul =>
                Some (if val <=? SIZE_MAX / mul
                      then val * mul
                      else Z.land SIZE_MAX (Z.lnot (1024 - 1)))
            | None => None
            end
          else None
        else Some val in
      match scaled with
      | Some val => if val mod div =? 0 then val else 0
      | None => 0
      end
    else 0
  else 0.

(** The syntax the comment of [ParseMemoryOption] gives,
    [[0-9]+[kKmMgG]?], as a property of the characters before the
    terminator. *)
Fixpoint c_str (s : string) : string :=
  match s with
  | EmptyString => EmptyString
  | String c rest => if Ascii.eqb c NUL then EmptyString
                     else String c (c_str rest)
  end.

Fixpoint all_digits (s : string) : bool :=
  match s with
  | EmptyString => true
  | String c rest => isdigit c && all_digits rest
  end.

(** The multiplier characters with the factor each stands for. *)
Definition size_suffixes : list (ascii * Z) :=
  ("k"%char, KB) :: ("K"%char, KB) :: ("m"%char, MB) :: ("M"%char, MB)
  :: ("g"%char, GB) :: ("G"%char, GB) :: nil.

Definition is_size_suffix (suffix : string) : Prop :=
  suffix = EmptyString
  \/ exists c mul, suffix = String c EmptyString /\ In (c, mul) size_suffixes.

Definition has_size_syntax (s : string) : Prop :=
  exists digits suffix,
    c_str s = (digits ++ suffix)%string
    /\ digits <> EmptyString
    /\ all_digits digits = true
    /\ is_size_suffix suffix.

(** A number in decimal, as [printf("%zu")] writes it. *)
Definition decimal (n : N) : string :=
  NilEmpty.string_of_uint (N.to_uint n).

(** ** Concrete headers used below *)

(** The scenario of the spec: code at [0x1000], size [0x100], info offset
    [0x10]. *)
Definition scenario_header : OatQuickMethodHeader :=
  mkHeader (0x1000 - 8) 0x10 0x100.

(** Same place, the deoptimize flag already set. *)
Definition flagged_header : OatQuickMethodHeader :=
  mkHeader (0x1000 - 8) 0x10 0x80000100.

(** A stub: the code-size word is all ones. *)
Definition stub_header : OatQuickMethodHeader :=
  mkHeader (0x1000 - 8) 0 0xFFFFFFFF.

(** All 31 size bits set, flag clear. *)
Definition full_size_header : OatQuickMethodHeader :=
  mkHeader (0x1000 - 8) 0 0x7FFFFFFF.

(** Code that would run past the end of a 32-bit address space. *)
Definition top_of_memory_header : OatQuickMethodHeader :=
  mkHeader (0xFFFFFF00 - 8) 0 0x200.

(** No code, but a nonzero info offset. *)
Definition empty_code_header : OatQuickMethodHeader :=
  mkHeader (0x1000 - 8) 0x10 0.

(** No info blob. *)
Definition no_info_header : OatQuickMethodHeader :=
  mkHeader (0x1000 - 8) 0 0x100.

(** ** Bit-level facts about the two masks *)

Lemma kCodeSizeMask_ones : kCodeSizeMask = Z.ones 31.
Proof. reflexivity. Qed.

Lemma kShouldDeoptimizeMask_pow2 : kShouldDeoptimizeMask = 2 ^ 31.
Proof. reflexivity. Qed.

Lemma masked_size_range (x : Z) :
  0 <= Z.land x kCodeSizeMask <= 0x7FFFFFFF.
Proof.
  rewrite kCodeSizeMask_ones, Z.land_ones by lia.
  pose proof (Z.mod_pos_bound x (2 ^ 31) ltac:(lia)) as Hb.
  change (2 ^ 31) with 2147483648 in *. lia.
Qed.

Lemma size_bits_ignore_flag (x : Z) :
  Z.land (Z.lor x kShouldDeoptimizeMask) kCodeSizeMask
  = Z.land x kCodeSizeMask.
Proof.
  rewrite Z.land_lor_distr_l.
  change (Z.land kShouldDeoptimizeMask kCodeSizeMask) with 0.
  apply Z.lor_0_r.
Qed.

Lemma flag_test_is_bit_31 (x : Z) :
  negb (Z.land x kShouldDeoptimizeMask =? 0) = Z.testbit x 31.
Proof.
  rewrite kShouldDeoptimizeMask_pow2.
  destruct (Z.testbit x 31) eqn:Hbit.
  - destruct (Z.eqb_spec (Z.land x (2 ^ 31)) 0) as [Hz|]; [|reflexivity].
    apply (f_equal (fun v => Z.testbit v 31)) in Hz.
    rewrite Z.land_spec, Hbit, Z.pow2_bits_eqb, Z.bits_0 in Hz by lia.
    discriminate Hz.
  - replace (Z.land x (2 ^ 31)) with 0; [reflexivity|].
    apply Z.bits_inj'; intros n Hn.
    rewrite Z.bits_0, Z.land_spec, Z.pow2_bits_eqb by lia.
    destruct (Z.eqb_spec 31 n) as [<-|]; [now rewrite Hbit|].
    now rewrite andb_false_r.
Qed.

Lemma lor_flag_idempotent (x : Z) :
  Z.testbit x 31 = true -> Z.lor x kShouldDeoptimizeMask = x.
Proof.
  intros Hbit. rewrite kShouldDeoptimizeMask_pow2.
  apply Z.bits_inj'; intros n Hn.
  rewrite Z.lor_spec, Z.pow2_bits_eqb by lia.
  destruct (Z.eqb_spec 31 n) as [<-|]; [now rewrite Hbit|].
  now rewrite orb_false_r.
Qed.

Lemma flagged_all_ones (x : Z) :
  is_uint32 x = true ->
  Z.lor x kShouldDeoptimizeMask = 0xFFFFFFFF ->
  x = 0x7FFFFFFF \/ x = 0xFFFFFFFF.
Proof.
  unfold is_uint32, uint32_max. intros Hr Hall.
  apply andb_prop in Hr as [Hlo Hhi].
  apply Z.leb_le in Hlo, Hhi.
  pose proof (size_bits_ignore_flag x) as Hm.
  rewrite Hall in Hm.
  change (Z.land 0xFFFFFFFF kCodeSizeMask) with 0x7FFFFFFF in Hm.
  rewrite kCodeSizeMask_ones, Z.land_ones in Hm by lia.
  change (2 ^ 31) with 2147483648 in Hm.
  pose proof (Z.div_mod x 2147483648 ltac:(lia)) as Hdm.
  rewrite <- Hm in Hdm.
  assert (x / 2147483648 = 0 \/ x / 2147483648 = 1) as [Hq|Hq] by
    (assert (0 <= x / 2147483648 < 2) by
       (split; [apply Z.div_pos; lia | apply Z.div_lt_upper_bound; lia]);
     lia).
  - left. lia.
  - right. lia.
Qed.

(** ** Unfolding equations of the checked methods *)

Lemma GetCodeSize_eq (h : OatQuickMethodHeader) :
  GetCodeSize h =
  if code_size_ h =? 0xFFFFFFFF
  then Aborts
  else Returns (Z.land (code_size_ h) kCodeSizeMask).
Proof.
  unfold GetCodeSize, CHECK, bind.
  now destruct (code_size_ h =? 0xFFFFFFFF).
Qed.

Lemma GetCodeSize_returns (h : OatQuickMethodHeader) (s : Z) :
  GetCodeSize h = Returns s ->
  code_size_ h <> 0xFFFFFFFF /\ s = Z.land (code_size_ h) kCodeSizeMask.
Proof.
  rewrite GetCodeSize_eq.
  destruct (Z.eqb_spec (code_size_ h) 0xFFFFFFFF); [discriminate|].
  intros [= <-]. now split.
Qed.

Lemma IsOptimized_eq (h : OatQuickMethodHeader) :
  IsOptimized h =
  if code_size_ h =? 0xFFFFFFFF
  then Aborts
  else Returns (negb (Z.land (code_size_ h) kCodeSizeMask =? 0)
                && negb (vmap_table_offset_ h =? 0)).
Proof.
  unfold IsOptimized. rewrite GetCodeSize_eq.
  now destruct (code_size_ h =? 0xFFFFFFFF).
Qed.

Lemma DCHECK_enabled (cond : Result bool) :
  kEnableDChecks = true -> DCHECK cond = CHECK cond.
Proof. unfold DCHECK. now intros ->. Qed.

Lemma DCHECK_disabled (cond : Result bool) :
  kEnableDChecks = false -> DCHECK cond = Returns tt.
Proof. unfold DCHECK. now intros ->. Qed.

Lemma DCHECK_true : DCHECK (Returns true) = Returns tt.
Proof. unfold DCHECK, CHECK. now destruct kEnableDChecks. Qed.

(** ** Claims about the code-size word *)

(** C1 (as the code has it): [GetCodeSize] aborts exactly when the raw,
    unmasked code-size word is [0xFFFFFFFF]; in every other case it
    returns the word with the deoptimize bit masked off. *)
Theorem GetCodeSize_aborts_iff_raw_all_ones (h : OatQuickMethodHeader) :
  (GetCodeSize h = Aborts <-> code_size_ h = 0xFFFFFFFF)
  /\ (code_size_ h <> 0xFFFFFFFF ->
      GetCodeSize h = Returns (Z.land (code_size_ h) kCodeSizeMask)).
Proof.
  rewrite GetCodeSize_eq.
  destruct (Z.eqb_spec (code_size_ h) 0xFFFFFFFF) as [Heq|Hne].
  - split; [now split | intros Hne; now elim Hne].
  - split; [split; [discriminate | intros Heq; now elim Hne] | reflexivity].
Qed.

(** C2 (as the code has it): on a header whose code-size word is neither
    [0xFFFFFFFF] (so that [GetCodeSize] returns) nor [0x7FFFFFFF], every
    successful [SetHasShouldDeoptimizeFlag] leaves the value returned by
    [GetCodeSize] unchanged, the call does succeed when the flag is
    clear, and clearing the 31 size bits never changes
    [HasShouldDeoptimizeFlag]. *)
Theorem SetHasShouldDeoptimizeFlag_keeps_code_size
    (h : OatQuickMethodHeader) (s : Z) :
  is_uint32 (code_size_ h) = true ->
  GetCodeSize h = Returns s ->
  code_size_ h <> 0x7FFFFFFF ->
  (forall h', SetHasShouldDeoptimizeFlag h = Returns h' ->
              GetCodeSize h' = Returns s)
  /\ (HasShouldDeoptimizeFlag h = false ->
      exists h', SetHasShouldDeoptimizeFlag h = Returns h')
  /\ HasShouldDeoptimizeFlag (clear_code_size_bits h)
     = HasShouldDeoptimizeFlag h.
Proof.
  intros Hrange Hsize Hfull.
  apply GetCodeSize_returns in Hsize as [Hstub ->].
  repeat split.
  - intros h' Hset. unfold SetHasShouldDeoptimizeFlag, bind in Hset.
    destruct (DCHECK _); [|discriminate].
    injection Hset as <-.
    rewrite GetCodeSize_eq; cbn [code_size_].
    destruct (Z.eqb_spec (Z.lor (code_size_ h) kShouldDeoptimizeMask)
                         0xFFFFFFFF) as [Hall|_].
    + destruct (flagged_all_ones _ Hrange Hall); contradiction.
    + now rewrite size_bits_ignore_flag.
  - unfold HasShouldDeoptimizeFlag, SetHasShouldDeoptimizeFlag.
    intros Hclear. apply negb_false_iff in Hclear.
    rewrite Hclear, DCHECK_true. cbn [bind]. now eexists.
  - unfold HasShouldDeoptimizeFlag, clear_code_size_bits; cbn [code_size_].
    change (Z.lxor kCodeSizeMask 0xFFFFFFFF) with kShouldDeoptimizeMask.
    now rewrite <- Z.land_assoc, Z.land_diag.
Qed.

(** C5: whenever [GetCodeSize] returns, [IsOptimized] returns too, and
    its value is true exactly when the returned code size is nonzero and
    the info offset is nonzero. *)
Theorem IsOptimized_iff_size_and_offset_nonzero
    (h : OatQuickMethodHeader) (s : Z) :
  GetCodeSize h = Returns s ->
  exists b, IsOptimized h = Returns b
            /\ (b = true <-> s <> 0 /\ vmap_table_offset_ h <> 0).
Proof.
  intros Hsize. unfold IsOptimized. rewrite Hsize. cbn [bind].
  eexists; split; [reflexivity|].
  rewrite andb_true_iff, !negb_true_iff, !Z.eqb_neq.
  split; intros Hboth; exact Hboth.
Qed.

(** C8 (as the code has it): on a header whose deoptimize flag is
    already set, [SetHasShouldDeoptimizeFlag] aborts when DCHECKs are
    compiled in; when they are compiled out it returns and leaves the
    header as it was.  [HasShouldDeoptimizeFlag] is a total function: the
    test of bit 31 of the code-size word. *)
Theorem SetHasShouldDeoptimizeFlag_when_already_set
    (h : OatQuickMethodHeader) :
  HasShouldDeoptimizeFlag h = true ->
  (kEnableDChecks = true -> SetHasShouldDeoptimizeFlag h = Aborts)
  /\ (kEnableDChecks = false -> SetHasShouldDeoptimizeFlag h = Returns h)
  /\ (forall g, HasShouldDeoptimizeFlag g = Z.testbit (code_size_ g) 31).
Proof.
  intros Hflag. unfold SetHasShouldDeoptimizeFlag. repeat split.
  - intros Hon. rewrite (DCHECK_enabled _ Hon).
    unfold HasShouldDeoptimizeFlag in Hflag.
    apply negb_true_iff in Hflag. now rewrite Hflag.
  - intros Hoff. rewrite (DCHECK_disabled _ Hoff). cbn [bind].
    unfold HasShouldDeoptimizeFlag in Hflag.
    rewrite flag_test_is_bit_31 in Hflag.
    rewrite (lor_flag_idempotent _ Hflag). now destruct h.
  - intros g. apply flag_test_is_bit_31.
Qed.

(** ** Claims about the optimized-code gate *)

(** C6 (as the code has it): both overloads of [GetOptimizedCodeInfoPtr]
    return code start minus the info offset when [IsOptimized] holds;
    with DCHECKs compiled in they abort whenever [IsOptimized] does not
    return true; with DCHECKs compiled out they perform no check and
    return code start minus the info offset for every header. *)
Theorem GetOptimizedCodeInfoPtr_gate (h : OatQuickMethodHeader) :
  let blob := wrap (code_ h - vmap_table_offset_ h) in
  (IsOptimized h = Returns true ->
     GetOptimizedCodeInfoPtr h = Returns blob
     /\ GetOptimizedCodeInfoPtr_const h = Returns blob)
  /\ (kEnableDChecks = true -> IsOptimized h <> Returns true ->
        GetOptimizedCodeInfoPtr h = Aborts
        /\ GetOptimizedCodeInfoPtr_const h = Aborts)
  /\ (kEnableDChecks = false ->
        GetOptimizedCodeInfoPtr h = Returns blob
        /\ GetOptimizedCodeInfoPtr_const h = Returns blob).
Proof.
  intros blob.
  unfold GetOptimizedCodeInfoPtr, GetOptimizedCodeInfoPtr_const.
  split; [|split].
  - intros ->. now rewrite DCHECK_true.
  - intros Hon Hnot. rewrite (DCHECK_enabled _ Hon). unfold CHECK.
    destruct (IsOptimized h) as [[|]|]; [now elim Hnot | easy | easy].
  - intros Hoff. now rewrite (DCHECK_disabled _ Hoff).
Qed.

(** C10: [GetVmapTable] aborts whenever [IsOptimized] holds; when
    [IsOptimized] is false it returns the null pointer for a zero info
    offset and code start minus the info offset otherwise. *)
Theorem GetVmapTable_legacy_accessor (h : OatQuickMethodHeader) :
  (IsOptimized h = Returns true -> GetVmapTable h = Aborts)
  /\ (IsOptimized h = Returns false -> vmap_table_offset_ h = 0 ->
        GetVmapTable h = Returns nullptr)
  /\ (IsOptimized h = Returns false -> vmap_table_offset_ h <> 0 ->
        GetVmapTable h = Returns (wrap (code_ h - vmap_table_offset_ h))).
Proof.
  unfold GetVmapTable, CHECK. repeat split.
  - now intros ->.
  - intros -> ->. reflexivity.
  - intros -> Hoff. apply Z.eqb_neq in Hoff. now rewrite Hoff.
Qed.

(** C9 (as the code has it): on a header whose code-size word is
    [0xFFFFFFFF], [GetCodeSize] and [IsOptimized] abort, and
    [Contains pc] aborts for every [pc] at or above the adjusted code
    start; below the adjusted code start [Contains pc] returns false
    without looking at the code size. *)
Theorem stub_header_queries (h : OatQuickMethodHeader) :
  code_size_ h = 0xFFFFFFFF ->
  GetCodeSize h = Aborts
  /\ IsOptimized h = Aborts
  /\ (forall pc, adjusted_code_start h <= pc -> Contains h pc = Aborts)
  /\ (forall pc, pc < adjusted_code_start h ->
                 Contains h pc = Returns false).
Proof.
  intros Hstub.
  assert (GetCodeSize h = Aborts) as Hsize
    by (rewrite GetCodeSize_eq, Hstub; reflexivity).
  repeat split.
  - exact Hsize.
  - unfold IsOptimized. now rewrite Hsize.
  - intros pc Hpc. unfold Contains. fold (adjusted_code_start h).
    apply Z.leb_le in Hpc. now rewrite Hpc, Hsize.
  - intros pc Hpc. unfold Contains. fold (adjusted_code_start h).
    apply Z.leb_gt in Hpc. now rewrite Hpc.
Qed.

(** ** Further properties of the code-size word and the gate *)

Lemma flag_bit_threshold (x : Z) :
  is_uint32 x = true -> Z.testbit x 31 = (0x80000000 <=? x).
Proof.
  unfold is_uint32, uint32_max. intros Hr.
  apply andb_prop in Hr as [Hlo Hhi]. apply Z.leb_le in Hlo, Hhi.
  destruct (Z.leb_spec 0x80000000 x) as [Hge|Hlt].
  - apply Z.testbit_true; [lia|]. change (2 ^ 31) with 2147483648.
    replace (x / 2147483648) with 1; [reflexivity|].
    apply Z.div_unique with (r := x - 2147483648); lia.
  - apply Z.testbit_false; [lia|]. change (2 ^ 31) with 2147483648.
    now rewrite Z.div_small by lia.
Qed.

Lemma GetCodeSize_after_flag (h : OatQuickMethodHeader) :
  is_uint32 (code_size_ h) = true ->
  code_size_ h <> 0x7FFFFFFF ->
  GetCodeSize (mkHeader (header_address h) (vmap_table_offset_ h)
                        (Z.lor (code_size_ h) kShouldDeoptimizeMask))
  = GetCodeSize h.
Proof.
  intros Hrange Hfull. rewrite !GetCodeSize_eq; cbn [code_size_].
  rewrite size_bits_ignore_flag.
  destruct (Z.eqb_spec (code_size_ h) 0xFFFFFFFF) as [Hstub|Hreal].
  - now rewrite Hstub.
  - destruct (Z.eqb_spec (Z.lor (code_size_ h) kShouldDeoptimizeMask)
                         0xFFFFFFFF) as [Hall|_]; [|reflexivity].
    destruct (flagged_all_ones _ Hrange Hall); contradiction.
Qed.

Lemma SetHasShouldDeoptimizeFlag_returns
    (h h' : OatQuickMethodHeader) :
  SetHasShouldDeoptimizeFlag h = Returns h' ->
  h' = mkHeader (header_address h) (vmap_table_offset_ h)
                (Z.lor (code_size_ h) kShouldDeoptimizeMask)
  /\ (kEnableDChecks = true -> HasShouldDeoptimizeFlag h = false).
Proof.
  unfold SetHasShouldDeoptimizeFlag, DCHECK, CHECK, HasShouldDeoptimizeFlag.
  destruct kEnableDChecks; cbn [bind].
  - destruct (Z.land (code_size_ h) kShouldDeoptimizeMask =? 0);
      [|discriminate].
    intros [= <-]. now split.
  - intros [= <-]. split; [reflexivity | discriminate].
Qed.

(** The stored word is the sum of its two views: the size that
    [GetCodeSize] returns, below [2^31], plus [2^31] when the flag is
    set. *)
Theorem code_size_word_is_size_plus_flag
    (h : OatQuickMethodHeader) (s : Z) :
  is_uint32 (code_size_ h) = true ->
  GetCodeSize h = Returns s ->
  0 <= s < kShouldDeoptimizeMask
  /\ code_size_ h
     = s + (if HasShouldDeoptimizeFlag h then kShouldDeoptimizeMask else 0).
Proof.
  intros Hrange Hsize.
  apply GetCodeSize_returns in Hsize as [_ ->].
  pose proof (masked_size_range (code_size_ h)) as Hs.
  unfold HasShouldDeoptimizeFlag.
  rewrite flag_test_is_bit_31, (flag_bit_threshold _ Hrange).
  unfold is_uint32, uint32_max in Hrange.
  apply andb_prop in Hrange as [Hlo Hhi]. apply Z.leb_le in Hlo, Hhi.
  rewrite kCodeSizeMask_ones, Z.land_ones in * by lia.
  change (2 ^ 31) with 2147483648 in *.
  change kShouldDeoptimizeMask with 2147483648.
  split; [lia|].
  destruct (Z.leb_spec 2147483648 (code_size_ h)) as [Hge|Hlt].
  - assert (code_size_ h mod 2147483648 = code_size_ h - 2147483648)
      by (symmetry; apply Z.mod_unique with (q := 1); lia).
    lia.
  - rewrite Z.mod_small; lia.
Qed.

(** A successful [SetHasShouldDeoptimizeFlag] leaves the flag set and the
    header where it was with the same info offset.  With DCHECKs on it can
    only have succeeded on a clear flag and an immediate second call
    aborts; with DCHECKs off a second call returns the same header. *)
Theorem SetHasShouldDeoptimizeFlag_sets_flag_once
    (h h' : OatQuickMethodHeader) :
  SetHasShouldDeoptimizeFlag h = Returns h' ->
  HasShouldDeoptimizeFlag h' = true
  /\ header_address h' = header_address h
  /\ vmap_table_offset_ h' = vmap_table_offset_ h
  /\ (kEnableDChecks = true ->
        HasShouldDeoptimizeFlag h = false
        /\ SetHasShouldDeoptimizeFlag h' = Aborts)
  /\ (kEnableDChecks = false -> SetHasShouldDeoptimizeFlag h' = Returns h').
Proof.
  intros Hset.
  apply SetHasShouldDeoptimizeFlag_returns in Hset as [-> Hclear].
  assert (Z.testbit (Z.lor (code_size_ h) kShouldDeoptimizeMask) 31 = true)
    as Hbit.
  { rewrite Z.lor_spec, kShouldDeoptimizeMask_pow2, Z.pow2_bits_eqb by lia.
    apply orb_true_r. }
  assert (HasShouldDeoptimizeFlag
            (mkHeader (header_address h) (vmap_table_offset_ h)
                      (Z.lor (code_size_ h) kShouldDeoptimizeMask)) = true)
    as Hflag.
  { unfold HasShouldDeoptimizeFlag; cbn [code_size_].
    now rewrite flag_test_is_bit_31. }
  split; [exact Hflag|]. split; [reflexivity|]. split; [reflexivity|].
  unfold SetHasShouldDeoptimizeFlag; cbn [code_size_ header_address
                                          vmap_table_offset_].
  split.
  - intros Hon. split; [exact (Hclear Hon)|].
    rewrite (DCHECK_enabled _ Hon). unfold CHECK; cbn [bind].
    unfold HasShouldDeoptimizeFlag in Hflag; cbn [code_size_] in Hflag.
    apply negb_true_iff in Hflag. now rewrite Hflag.
  - intros Hoff. rewrite (DCHECK_disabled _ Hoff). cbn [bind].
    now rewrite (lor_flag_idempotent _ Hbit).
Qed.

(** Unless all 31 size bits are set, a successful
    [SetHasShouldDeoptimizeFlag] changes the answer of no other query:
    [IsOptimized], [Contains], the entry point and both blob accessors
    behave as before. *)
Theorem SetHasShouldDeoptimizeFlag_keeps_queries
    (h h' : OatQuickMethodHeader) :
  is_uint32 (code_size_ h) = true ->
  code_size_ h <> 0x7FFFFFFF ->
  SetHasShouldDeoptimizeFlag h = Returns h' ->
  IsOptimized h' = IsOptimized h
  /\ (forall pc, Contains h' pc = Contains h pc)
  /\ GetEntryPoint h' = GetEntryPoint h
  /\ GetVmapTable h' = GetVmapTable h
  /\ GetOptimizedCodeInfoPtr h' = GetOptimizedCodeInfoPtr h.
Proof.
  intros Hrange Hfull Hset.
  apply SetHasShouldDeoptimizeFlag_returns in Hset as [-> _].
  pose proof (GetCodeSize_after_flag h Hrange Hfull) as Hsize.
  assert (IsOptimized
            (mkHeader (header_address h) (vmap_table_offset_ h)
                      (Z.lor (code_size_ h) kShouldDeoptimizeMask))
          = IsOptimized h) as Hopt
    by (unfold IsOptimized; now rewrite Hsize).
  split; [exact Hopt|]. split; [|split; [reflexivity|split]].
  - intros pc. unfold Contains. now rewrite Hsize.
  - unfold GetVmapTable. now rewrite Hopt.
  - unfold GetOptimizedCodeInfoPtr. now rewrite Hopt.
Qed.

(** With DCHECKs on, exactly one of the two blob accessors is usable on a
    header that is not a stub, and [IsOptimized] says which: when it is
    true [GetOptimizedCodeInfoPtr] returns and [GetVmapTable] aborts,
    when it is false [GetVmapTable] returns and
    [GetOptimizedCodeInfoPtr] aborts.  On a stub [GetVmapTable] aborts
    in every build. *)
Theorem blob_accessors_exclusive (h : OatQuickMethodHeader) :
  let blob := wrap (code_ h - vmap_table_offset_ h) in
  (code_size_ h = 0xFFFFFFFF -> GetVmapTable h = Aborts)
  /\ (kEnableDChecks = true -> code_size_ h <> 0xFFFFFFFF ->
        (IsOptimized h = Returns true
         /\ GetOptimizedCodeInfoPtr h = Returns blob
         /\ GetVmapTable h = Aborts)
        \/ (IsOptimized h = Returns false
            /\ GetOptimizedCodeInfoPtr h = Aborts
            /\ GetVmapTable h
               = Returns (if vmap_table_offset_ h =? 0
                          then nullptr else blob))).
Proof.
  intros blob. unfold GetVmapTable, GetOptimizedCodeInfoPtr.
  rewrite IsOptimized_eq. split.
  - intros Hstub. apply Z.eqb_eq in Hstub. now rewrite Hstub.
  - intros Hon Hreal. rewrite (DCHECK_enabled _ Hon).
    apply Z.eqb_neq in Hreal. rewrite Hreal. unfold CHECK; cbn [bind].
    destruct (negb (Z.land (code_size_ h) kCodeSizeMask =? 0)
              && negb (vmap_table_offset_ h =? 0));
      cbn [bind negb]; [left | right]; repeat split.
Qed.

(** Resetting the info offset to zero turns any header that is not a
    stub into an unoptimized one: [GetVmapTable] then returns the null
    pointer, the code size is untouched, and with DCHECKs on the
    optimized-code accessors abort. *)
Theorem SetVmapTableOffset_zero_unoptimizes (h : OatQuickMethodHeader) :
  code_size_ h <> 0xFFFFFFFF ->
  let h0 := SetVmapTableOffset h 0 in
  IsOptimized h0 = Returns false
  /\ GetVmapTable h0 = Returns nullptr
  /\ GetCodeSize h0 = GetCodeSize h
  /\ (kEnableDChecks = true ->
        GetOptimizedCodeInfoPtr h0 = Aborts /\ GetFrameInfo h0 = Aborts).
Proof.
  intros Hreal h0.
  assert (IsOptimized h0 = Returns false) as Hopt.
  { rewrite IsOptimized_eq. subst h0. cbn [SetVmapTableOffset code_size_
                                           vmap_table_offset_].
    apply Z.eqb_neq in Hreal. rewrite Hreal.
    now rewrite andb_false_r. }
  split; [exact Hopt|]. split; [|split; [reflexivity|]].
  - unfold GetVmapTable. now rewrite Hopt.
  - intros Hon. unfold GetFrameInfo, GetOptimizedCodeInfoPtr.
    rewrite (DCHECK_enabled _ Hon), Hopt. now split.
Qed.

(** The frame-size query: whenever the size-checked variant returns, the
    unchecked one returns the same size; with DCHECKs on that size is
    stack-aligned and the header is optimized.  With DCHECKs off both
    variants return the decoded size of the blob at code start minus the
    info offset, for every header. *)
Theorem GetFrameSizeInBytes_checked_refines_unchecked
    (h : OatQuickMethodHeader) :
  let decoded :=
    FrameSizeInBytes (DecodeFrameInfo (wrap (code_ h - vmap_table_offset_ h)))
  in
  (forall r, GetFrameSizeInBytes true h = Returns r ->
             r = decoded
             /\ GetFrameSizeInBytes false h = Returns r
             /\ (kEnableDChecks = true ->
                   IsAlignedParam r kStackAlignment = true
                   /\ IsOptimized h = Returns true))
  /\ (kEnableDChecks = false ->
        GetFrameSizeInBytes true h = Returns decoded
        /\ GetFrameSizeInBytes false h = Returns decoded)
  /\ (IsOptimized h = Returns true ->
        GetFrameSizeInBytes false h = Returns decoded).
Proof.
  intros decoded.
  unfold GetFrameSizeInBytes, GetFrameInfo, GetOptimizedCodeInfoPtr_const,
    DCHECK, CHECK.
  split; [|split].
  - intros r. destruct kEnableDChecks; cbn [bind].
    + destruct (IsOptimized h) as [[|]|]; cbn [bind]; try discriminate.
      fold decoded.
      destruct (IsAlignedParam decoded kStackAlignment) eqn:Haligned;
        cbn [bind]; [|discriminate].
      intros [= <-]. repeat split; try reflexivity; auto.
    + fold decoded. intros [= <-].
      repeat split; try reflexivity; discriminate.
  - intros ->. cbn [bind]. now split.
  - intros ->. destruct kEnableDChecks; reflexivity.
Qed.

(** ** Pointer arithmetic *)

Section Pointers.

(** Pointers are at least as wide as the [uint32_t] fields. *)
Hypothesis kBitsPerIntPtrT_min : 32 <= kBitsPerIntPtrT.

Lemma pointer_space_large : 4294967296 <= 2 ^ kBitsPerIntPtrT.
Proof.
  change 4294967296 with (2 ^ 32).
  apply Z.pow_le_mono_r; lia.
Qed.

Lemma wrap_range (x : Z) : 0 <= wrap x < 2 ^ kBitsPerIntPtrT.
Proof.
  unfold wrap. apply Z.mod_pos_bound.
  pose proof pointer_space_large. lia.
Qed.

Lemma wrap_small (x : Z) :
  0 <= x < 2 ^ kBitsPerIntPtrT -> wrap x = x.
Proof. unfold wrap. apply Z.mod_small. Qed.

Lemma wrap_below (x : Z) :
  - 2 ^ kBitsPerIntPtrT <= x < 0 -> wrap x = x + 2 ^ kBitsPerIntPtrT.
Proof.
  intros Hx. unfold wrap. symmetry.
  apply (Z.mod_unique x (2 ^ kBitsPerIntPtrT) (-1)); lia.
Qed.

Lemma wrap_even (x : Z) : Z.even (wrap x) = Z.even x.
Proof.
  unfold wrap. pose proof pointer_space_large.
  rewrite Z.mod_eq by lia.
  rewrite Z.even_sub, Z.even_mul, Z.even_pow by lia.
  cbn. now destruct (Z.even x).
Qed.

Lemma is_uintptr_range (x : Z) :
  is_uintptr x = true -> 0 <= x < 2 ^ kBitsPerIntPtrT.
Proof.
  unfold is_uintptr. intros Hx. apply andb_prop in Hx as [Hlo Hhi].
  apply Z.leb_le in Hlo. apply Z.ltb_lt in Hhi. lia.
Qed.

Lemma aligned_even (x n : Z) :
  Z.even n = true -> IsAlignedParam x n = true -> Z.even x = true.
Proof.
  unfold IsAlignedParam. intros Hn Hx. apply Z.eqb_eq in Hx.
  apply (f_equal (fun v => Z.testbit v 0)) in Hx.
  rewrite Z.land_spec, Z.bits_0, !Z.bit0_odd in Hx.
  rewrite Z.odd_sub in Hx. rewrite <- !Z.negb_even in Hx.
  rewrite Hn in Hx. cbn in Hx.
  now destruct (Z.even x).
Qed.

Lemma even_lor_1 (x : Z) : Z.even x = true -> Z.lor x 1 = x + 1.
Proof.
  intros Hx.
  assert (Z.land x 1 = 0) as Hdisjoint.
  { change 1 with (Z.ones 1). rewrite Z.land_ones by lia.
    change (2 ^ 1) with 2. rewrite Zmod_even, Hx. reflexivity. }
  now rewrite <- Z.lxor_lor, <- Z.add_nocarry_lxor.
Qed.

Lemma untag_mask_bits (n : Z) :
  0 <= n ->
  Z.testbit (wrap (Z.lnot 1)) n
  = (n <? kBitsPerIntPtrT) && negb (0 =? n).
Proof.
  intros Hn. unfold wrap.
  destruct (Z.ltb_spec n kBitsPerIntPtrT).
  - rewrite Z.mod_pow2_bits_low, Z.lnot_spec by lia.
    change 1 with (2 ^ 0). now rewrite Z.pow2_bits_eqb by lia.
  - now rewrite Z.mod_pow2_bits_high by lia.
Qed.

Lemma bits_above_pointer (x n : Z) :
  0 <= x < 2 ^ kBitsPerIntPtrT -> kBitsPerIntPtrT <= n ->
  Z.testbit x n = false.
Proof.
  intros Hx Hn. rewrite <- (Z.mod_small x (2 ^ kBitsPerIntPtrT)) by lia.
  apply Z.mod_pow2_bits_high. lia.
Qed.

(** Untagging undoes tagging on an even code address, and leaves an
    untagged even address alone. *)
Lemma EntryPointToCodePointer_untags (code : Z) :
  0 <= code < 2 ^ kBitsPerIntPtrT -> Z.even code = true ->
  EntryPointToCodePointer code = code
  /\ EntryPointToCodePointer (Z.lor code 1) = code.
Proof.
  intros Hrange Heven.
  assert (Z.testbit code 0 = false) as Hbit0
    by (rewrite Z.bit0_odd, <- Z.negb_even, Heven; reflexivity).
  unfold EntryPointToCodePointer.
  split; apply Z.bits_inj'; intros n Hn;
    rewrite Z.land_spec, untag_mask_bits by lia;
    [|rewrite Z.lor_spec; change 1 with (2 ^ 0);
      rewrite Z.pow2_bits_eqb by lia];
    (destruct (Z.eqb_spec 0 n) as [<-|Hpos];
     [rewrite Hbit0; now rewrite ?andb_false_r|]);
    (destruct (Z.ltb_spec n kBitsPerIntPtrT);
     [now rewrite ?orb_false_r, andb_true_r
     |rewrite (bits_above_pointer code n) by lia; reflexivity]).
Qed.

Lemma adjusted_code_start_range (h : OatQuickMethodHeader) :
  0 <= adjusted_code_start h < 2 ^ kBitsPerIntPtrT.
Proof.
  unfold adjusted_code_start, code_.
  destruct (InstructionSet_eqb kRuntimeISA kArm); apply wrap_range.
Qed.

Lemma Contains_eq (h : OatQuickMethodHeader) (pc : Z) :
  Contains h pc =
  if adjusted_code_start h <=? pc
  then s <- GetCodeSize h ;;
       Returns (pc <=? wrap (adjusted_code_start h + s))
  else Returns false.
Proof. reflexivity. Qed.

(** C3 (as the code has it): when [GetCodeSize] returns [S] and
    [C + S] does not run past the end of the address space, where [C]
    is the adjusted code start, [Contains pc] returns true exactly
    when [C <= pc <= C + S]; so it is true at [C] and [C + S] and
    false at the pointers [C - 1] and [C + S + 1]. *)
Theorem Contains_inclusive_bounds (h : OatQuickMethodHeader) (S : Z) :
  GetCodeSize h = Returns S ->
  adjusted_code_start h + S < 2 ^ kBitsPerIntPtrT ->
  let C := adjusted_code_start h in
  (forall pc, Contains h pc = Returns ((C <=? pc) && (pc <=? C + S)))
  /\ Contains h C = Returns true
  /\ Contains h (C + S) = Returns true
  /\ Contains h (wrap (C - 1)) = Returns false
  /\ Contains h (wrap (C + S + 1)) = Returns false.
Proof.
  intros Hsize Hfit C.
  pose proof (adjusted_code_start_range h) as HC. fold C in HC, Hfit.
  pose proof pointer_space_large as Hw.
  assert (0 <= S <= 0x7FFFFFFF) as HS.
  { apply GetCodeSize_returns in Hsize as [_ ->].
    apply masked_size_range. }
  assert (forall pc,
             Contains h pc = Returns ((C <=? pc) && (pc <=? C + S)))
    as Hgeneral.
  { intros pc. rewrite Contains_eq, Hsize. fold C. cbn [bind].
    rewrite wrap_small by lia. now destruct (C <=? pc). }
  split; [exact Hgeneral|].
  rewrite !Hgeneral. repeat split; f_equal.
  - apply andb_true_intro. split; apply Z.leb_le; lia.
  - apply andb_true_intro. split; apply Z.leb_le; lia.
  - destruct (Z.eq_dec C 0) as [Hzero|Hpos].
    + rewrite Hzero, wrap_below by lia.
      apply andb_false_intro2. apply Z.leb_gt. lia.
    + rewrite wrap_small by lia.
      apply andb_false_intro1. apply Z.leb_gt. lia.
  - destruct (Z.eq_dec (C + S + 1) (2 ^ kBitsPerIntPtrT)) as [Hend|Hin].
    + rewrite Hend. unfold wrap. rewrite Z.mod_same by lia.
      apply andb_false_intro1. apply Z.leb_gt. lia.
    + rewrite wrap_small by lia.
      apply andb_false_intro2. apply Z.leb_gt. lia.
Qed.

(** C4: for every instruction set and every valid code pointer [p]
    (in pointer range and passing the alignment check of
    [FromCodePointer]), [FromCodePointer p] returns a header address and
    the code of any header at that address starts at [p].  That header's
    entry point is [p] OR'd with the tag bit 1 on ARM, which is [p + 1],
    and is [p] itself on every other instruction set; untagging it gives
    [p] back, and [FromEntryPoint] applied to it returns the same header
    address. *)
Theorem FromEntryPoint_GetEntryPoint_round_trip (p : Z) :
  Z.even (GetInstructionSetAlignment kRuntimeISA) = true ->
  is_uintptr p = true ->
  IsAlignedParam p (GetInstructionSetAlignment kRuntimeISA)
  || IsAlignedParam (wrap (p - kCodeOffset))
                    (GetInstructionSetAlignment kRuntimeISA) = true ->
  exists header,
    FromCodePointer p = Returns header
    /\ forall h, header_address h = header ->
                 code_ h = p
                 /\ (kRuntimeISA = kArm ->
                       GetEntryPoint h = Z.lor p 1
                       /\ GetEntryPoint h = p + 1)
                 /\ (kRuntimeISA <> kArm -> GetEntryPoint h = p)
                 /\ EntryPointToCodePointer (GetEntryPoint h) = p
                 /\ FromEntryPoint (GetEntryPoint h) = Returns header.
Proof.
  intros Halign Hptr Hvalid.
  apply is_uintptr_range in Hptr.
  assert (FromCodePointer p = Returns (wrap (p - kCodeOffset))) as Hfrom.
  { unfold FromCodePointer. cbv zeta. now rewrite Hvalid, DCHECK_true. }
  assert (Z.even p = true) as Heven.
  { apply orb_prop in Hvalid as [Hcode|Hheader].
    - exact (aligned_even _ _ Halign Hcode).
    - apply (aligned_even _ _ Halign) in Hheader.
      rewrite wrap_even, Z.even_sub in Hheader.
      cbn in Hheader. now destruct (Z.even p). }
  exists (wrap (p - kCodeOffset)). split; [exact Hfrom|].
  intros h Hh.
  assert (code_ h = p) as Hcode.
  { unfold code_, wrap. rewrite Hh. unfold wrap.
    rewrite Zplus_mod_idemp_l.
    replace (p - kCodeOffset + kCodeOffset) with p by ring.
    now apply Z.mod_small. }
  split; [exact Hcode|].
  destruct (EntryPointToCodePointer_untags p Hptr Heven) as [Hplain Htag].
  split; [|split; [|split]].
  - intros Harm. unfold GetEntryPoint.
    rewrite Harm, Hcode. cbn [InstructionSet_eqb].
    split; [reflexivity | exact (even_lor_1 p Heven)].
  - intros Hother. unfold GetEntryPoint. rewrite Hcode.
    destruct kRuntimeISA; try reflexivity. now elim Hother.
  - unfold GetEntryPoint. rewrite Hcode.
    now destruct (InstructionSet_eqb kRuntimeISA kArm).
  - unfold FromEntryPoint, GetEntryPoint. rewrite Hcode.
    destruct (InstructionSet_eqb kRuntimeISA kArm).
    + now rewrite Htag.
    + now rewrite Hplain.
Qed.

(** C7: [NativeQuickPcOffset pc] is [pc] minus the entry point, in
    [uintptr_t] arithmetic (exactly the difference when the entry
    point is not above [pc]).  The entry point is the code start plus
    one on ARM, so there the offset is one less than [pc] minus the
    code start; on the other instruction sets the entry point is the
    code start. *)
Theorem NativeQuickPcOffset_from_entry_point
    (h : OatQuickMethodHeader) (pc : Z) :
  header_wf h = true ->
  is_uintptr pc = true ->
  NativeQuickPcOffset h pc = wrap (pc - GetEntryPoint h)
  /\ (GetEntryPoint h <= pc ->
        NativeQuickPcOffset h pc = pc - GetEntryPoint h)
  /\ (kRuntimeISA = kArm ->
        GetEntryPoint h = code_ h + 1
        /\ NativeQuickPcOffset h pc = wrap (pc - code_ h - 1)
        /\ (code_ h < pc ->
              NativeQuickPcOffset h pc = pc - code_ h - 1))
  /\ (kRuntimeISA <> kArm -> GetEntryPoint h = code_ h).
Proof.
  intros Hwf Hpc. apply is_uintptr_range in Hpc.
  unfold header_wf in Hwf.
  apply andb_prop in Hwf as [Hwf _].
  apply andb_prop in Hwf as [Hwf _].
  apply andb_prop in Hwf as [_ Haligned].
  apply (aligned_even _ kHeaderAlignment eq_refl) in Haligned.
  assert (Z.even (code_ h) = true) as Heven.
  { unfold code_. rewrite wrap_even, Z.even_add, Haligned. reflexivity. }
  pose proof (wrap_range (header_address h + kCodeOffset)) as Hcode.
  fold (code_ h) in Hcode.
  pose proof (even_lor_1 _ Heven) as Htag.
  assert (0 <= GetEntryPoint h) as Hentry.
  { unfold GetEntryPoint.
    destruct (InstructionSet_eqb kRuntimeISA kArm); lia. }
  split; [reflexivity|]. split; [|split].
  - intros Hbelow. unfold NativeQuickPcOffset.
    apply wrap_small. lia.
  - intros Harm. unfold NativeQuickPcOffset, GetEntryPoint.
    rewrite Harm. cbn [InstructionSet_eqb]. rewrite Htag.
    split; [reflexivity|].
    replace (pc - (code_ h + 1)) with (pc - code_ h - 1) by ring.
    split; [reflexivity|].
    intros Hinside. apply wrap_small. lia.
  - intros Hother. unfold GetEntryPoint.
    destruct kRuntimeISA; try reflexivity. now elim Hother.
Qed.

(** ** Further properties of the address computations *)

Lemma wrap_wrap_add_sub (a k : Z) :
  0 <= a < 2 ^ kBitsPerIntPtrT -> wrap (wrap (a + k) - k) = a.
Proof.
  intros Ha. unfold wrap. rewrite Zminus_mod_idemp_l.
  replace (a + k - k) with a by ring. now apply Z.mod_small.
Qed.

Lemma code_even (h : OatQuickMethodHeader) :
  header_wf h = true -> Z.even (code_ h) = true.
Proof.
  unfold header_wf. intros Hwf.
  apply andb_prop in Hwf as [Hwf _].
  apply andb_prop in Hwf as [Hwf _].
  apply andb_prop in Hwf as [_ Haligned].
  apply (aligned_even _ kHeaderAlignment eq_refl) in Haligned.
  unfold code_. now rewrite wrap_even, Z.even_add, Haligned.
Qed.

Lemma even_pointer_has_successor (x : Z) :
  0 <= x < 2 ^ kBitsPerIntPtrT -> Z.even x = true ->
  x + 1 < 2 ^ kBitsPerIntPtrT.
Proof.
  intros Hx Heven.
  assert (x + 1 <> 2 ^ kBitsPerIntPtrT); [|lia].
  intros Htop. apply (f_equal Z.even) in Htop.
  rewrite Z.even_add, Heven, Z.even_pow in Htop by lia.
  discriminate Htop.
Qed.

Lemma odd_lor_1 (x : Z) : Z.even x = false -> Z.lor x 1 = x.
Proof.
  intros Hodd. apply Z.bits_inj'; intros n Hn.
  rewrite Z.lor_spec. change 1 with (2 ^ 0).
  rewrite Z.pow2_bits_eqb by lia.
  destruct (Z.eqb_spec 0 n) as [<-|_]; [|apply orb_false_r].
  rewrite Z.bit0_odd, <- Z.negb_even, Hodd. reflexivity.
Qed.

Lemma GetEntryPoint_is_adjusted_code_start (h : OatQuickMethodHeader) :
  header_wf h = true -> GetEntryPoint h = adjusted_code_start h.
Proof.
  intros Hwf. pose proof (code_even h Hwf) as Heven.
  pose proof (wrap_range (header_address h + kCodeOffset)) as Hcode.
  fold (code_ h) in Hcode.
  unfold GetEntryPoint, adjusted_code_start.
  destruct (InstructionSet_eqb kRuntimeISA kArm); [|reflexivity].
  rewrite (even_lor_1 _ Heven), wrap_small; [reflexivity|].
  pose proof (even_pointer_has_successor _ Hcode Heven). lia.
Qed.

Lemma Contains_returns (h : OatQuickMethodHeader) (S pc : Z) :
  GetCodeSize h = Returns S ->
  adjusted_code_start h + S < 2 ^ kBitsPerIntPtrT ->
  Contains h pc
  = Returns ((adjusted_code_start h <=? pc)
             && (pc <=? adjusted_code_start h + S)).
Proof.
  intros Hsize Hfit.
  pose proof (adjusted_code_start_range h) as HC.
  assert (0 <= S) as HS.
  { apply GetCodeSize_returns in Hsize as [_ ->].
    apply masked_size_range. }
  rewrite Contains_eq, Hsize. cbn [bind].
  rewrite wrap_small by lia.
  now destruct (adjusted_code_start h <=? pc).
Qed.

(** Locating the header from the code pointer undoes [GetCode]: if
    [FromCodePointer] returns on a header's code address it returns that
    header's address, and it does return when DCHECKs are off or when the
    code or the header address is aligned. *)
Theorem FromCodePointer_GetCode (h : OatQuickMethodHeader) :
  is_uintptr (header_address h) = true ->
  (forall header, FromCodePointer (GetCode h) = Returns header ->
                  header = header_address h)
  /\ (kEnableDChecks = false ->
        FromCodePointer (GetCode h) = Returns (header_address h))
  /\ (IsAlignedParam (GetCode h) (GetInstructionSetAlignment kRuntimeISA)
      || IsAlignedParam (header_address h)
                        (GetInstructionSetAlignment kRuntimeISA) = true ->
        FromCodePointer (GetCode h) = Returns (header_address h)).
Proof.
  intros Hptr. apply is_uintptr_range in Hptr.
  unfold FromCodePointer, GetCode, code_. cbv zeta.
  rewrite (wrap_wrap_add_sub _ _ Hptr).
  split; [|split].
  - intros header. destruct (DCHECK _); cbn [bind]; [|discriminate].
    now intros [= <-].
  - intros Hoff. now rewrite (DCHECK_disabled _ Hoff).
  - intros ->. now rewrite DCHECK_true.
Qed.

(** [Contains] measures from the entry point: the bounds it compares
    against start at [GetEntryPoint], so the entry point is always
    contained, while the code start itself is contained on every
    instruction set except ARM. *)
Theorem Contains_starts_at_entry_point (h : OatQuickMethodHeader) (S : Z) :
  header_wf h = true ->
  GetCodeSize h = Returns S ->
  GetEntryPoint h + S < 2 ^ kBitsPerIntPtrT ->
  (forall pc, Contains h pc
              = Returns ((GetEntryPoint h <=? pc)
                         && (pc <=? GetEntryPoint h + S)))
  /\ Contains h (GetEntryPoint h) = Returns true
  /\ Contains h (GetCode h)
     = Returns (negb (InstructionSet_eqb kRuntimeISA kArm)).
Proof.
  intros Hwf Hsize Hfit.
  pose proof (GetEntryPoint_is_adjusted_code_start h Hwf) as Hentry.
  rewrite Hentry in *.
  assert (0 <= S) as HS.
  { apply GetCodeSize_returns in Hsize as [_ ->].
    apply masked_size_range. }
  pose proof (wrap_range (header_address h + kCodeOffset)) as Hcode.
  fold (code_ h) in Hcode.
  split; [intros pc; now apply Contains_returns|].
  rewrite !(Contains_returns h S _ Hsize Hfit). split; f_equal.
  - apply andb_true_intro. split; apply Z.leb_le; lia.
  - unfold GetCode, adjusted_code_start in *.
    destruct (InstructionSet_eqb kRuntimeISA kArm); cbn [negb].
    + pose proof (even_pointer_has_successor _ Hcode (code_even h Hwf)).
      rewrite wrap_small by lia.
      apply andb_false_intro1. apply Z.leb_gt. lia.
    + apply andb_true_intro. split; apply Z.leb_le; lia.
Qed.

(** Every [pc] that [Contains] accepts has a native offset between 0 and
    the code size, equal to the plain difference from the entry point;
    a [pc] in pointer range that it rejects lies before the entry point
    or more than the code size beyond it. *)
Theorem Contains_bounds_native_offset
    (h : OatQuickMethodHeader) (S pc : Z) :
  header_wf h = true ->
  GetCodeSize h = Returns S ->
  GetEntryPoint h + S < 2 ^ kBitsPerIntPtrT ->
  (Contains h pc = Returns true ->
     NativeQuickPcOffset h pc = pc - GetEntryPoint h
     /\ 0 <= NativeQuickPcOffset h pc <= S)
  /\ (Contains h pc = Returns false ->
        pc < GetEntryPoint h \/ GetEntryPoint h + S < pc).
Proof.
  intros Hwf Hsize Hfit.
  pose proof (GetEntryPoint_is_adjusted_code_start h Hwf) as Hentry.
  pose proof (adjusted_code_start_range h) as HC.
  rewrite <- Hentry in HC.
  rewrite Hentry in Hfit.
  rewrite (Contains_returns h S pc Hsize Hfit), <- Hentry.
  split.
  - intros [= Hin]. apply andb_prop in Hin as [Hlo Hhi].
    apply Z.leb_le in Hlo, Hhi.
    unfold NativeQuickPcOffset. rewrite wrap_small by lia. lia.
  - intros [= Hout]. apply andb_false_iff in Hout as [Hlo|Hhi].
    + left. now apply Z.leb_gt.
    + right. now apply Z.leb_gt.
Qed.

(** [NativeQuickPcOffset] and addition to the entry point are inverse to
    each other in [uintptr_t] arithmetic, on every header. *)
Theorem NativeQuickPcOffset_round_trip (h : OatQuickMethodHeader) :
  (forall pc, is_uintptr pc = true ->
              wrap (GetEntryPoint h + NativeQuickPcOffset h pc) = pc)
  /\ (forall offset, is_uintptr offset = true ->
        NativeQuickPcOffset h (wrap (GetEntryPoint h + offset)) = offset).
Proof.
  unfold NativeQuickPcOffset, wrap. split.
  - intros pc Hpc. apply is_uintptr_range in Hpc.
    rewrite Zplus_mod_idemp_r.
    replace (GetEntryPoint h + (pc - GetEntryPoint h)) with pc by ring.
    now apply Z.mod_small.
  - intros offset Hoff. apply is_uintptr_range in Hoff.
    rewrite Zminus_mod_idemp_l.
    replace (GetEntryPoint h + offset - GetEntryPoint h) with offset by ring.
    now apply Z.mod_small.
Qed.

(** The entry point is a pointer again.  On ARM it is odd (the Thumb bit
    is set) and is the code address or the address after it; on the other
    instruction sets it is the code address. *)
Theorem GetEntryPoint_tag_bit (h : OatQuickMethodHeader) :
  is_uintptr (GetEntryPoint h) = true
  /\ (kRuntimeISA = kArm ->
        Z.odd (GetEntryPoint h) = true
        /\ GetCode h <= GetEntryPoint h <= GetCode h + 1)
  /\ (kRuntimeISA <> kArm -> GetEntryPoint h = GetCode h).
Proof.
  pose proof (wrap_range (header_address h + kCodeOffset)) as Hcode.
  fold (code_ h) in Hcode.
  assert (Z.odd (Z.lor (code_ h) 1) = true) as Hodd.
  { rewrite <- Z.bit0_odd, Z.lor_spec. apply orb_true_r. }
  assert (code_ h <= Z.lor (code_ h) 1 <= code_ h + 1
          /\ Z.lor (code_ h) 1 < 2 ^ kBitsPerIntPtrT) as Htag.
  { destruct (Z.even (code_ h)) eqn:Heven.
    - rewrite (even_lor_1 _ Heven).
      pose proof (even_pointer_has_successor _ Hcode Heven). lia.
    - rewrite (odd_lor_1 _ Heven). lia. }
  unfold is_uintptr, GetCode, GetEntryPoint. split; [|split].
  - destruct (InstructionSet_eqb kRuntimeISA kArm);
      apply andb_true_intro; split;
      (apply Z.leb_le || apply Z.ltb_lt); lia.
  - intros ->. cbn [InstructionSet_eqb]. now split.
  - intros Hother. destruct kRuntimeISA; try reflexivity. now elim Hother.
Qed.

(** Layout: the info-offset word is at the header address, the code-size
    word is the four bytes that end where the code begins, and when the
    record does not wrap around the end of memory the three addresses are
    four bytes apart in that order. *)
Theorem stored_words_precede_code (h : OatQuickMethodHeader) :
  is_uintptr (header_address h) = true ->
  GetVmapTableOffsetAddr h = header_address h
  /\ GetVmapTableOffsetAddr h = wrap (GetCode h - 8)
  /\ GetCodeSizeAddr h = wrap (GetCode h - 4)
  /\ (header_address h + kCodeOffset < 2 ^ kBitsPerIntPtrT ->
        GetCodeSizeAddr h = GetVmapTableOffsetAddr h + 4
        /\ GetCode h = GetCodeSizeAddr h + 4).
Proof.
  intros Hptr. apply is_uintptr_range in Hptr.
  unfold GetVmapTableOffsetAddr, GetCodeSizeAddr, GetCode, code_,
    kVmapTableOffsetFieldOffset, kCodeSizeFieldOffset.
  change kCodeOffset with 8.
  rewrite Z.add_0_r, (wrap_small (header_address h)) by lia.
  split; [reflexivity|]. split; [|split].
  - now rewrite wrap_wrap_add_sub.
  - unfold wrap. rewrite Zminus_mod_idemp_l. f_equal. ring.
  - intros Hfit. rewrite !wrap_small by lia. lia.
Qed.

(** With DCHECKs on and an even code alignment, [FromCodePointer]
    never returns on an odd pointer: a tagged entry point passed where a
    code pointer is expected is caught. *)
Theorem FromCodePointer_rejects_odd_pointer (p : Z) :
  kEnableDChecks = true ->
  Z.even (GetInstructionSetAlignment kRuntimeISA) = true ->
  Z.even p = false ->
  FromCodePointer p = Aborts.
Proof.
  intros Hon Halign Hodd.
  unfold FromCodePointer. cbv zeta. rewrite (DCHECK_enabled _ Hon).
  unfold CHECK; cbn [bind].
  destruct (IsAlignedParam p (GetInstructionSetAlignment kRuntimeISA)
            || IsAlignedParam (wrap (p - kCodeOffset))
                              (GetInstructionSetAlignment kRuntimeISA))
    eqn:Hvalid; [|reflexivity].
  apply orb_prop in Hvalid as [Hcode|Hheader].
  - apply (aligned_even _ _ Halign) in Hcode. congruence.
  - apply (aligned_even _ _ Halign) in Hheader.
    rewrite wrap_even, Z.even_sub, Hodd in Hheader. discriminate Hheader.
Qed.

End Pointers.

(** ** Properties of the memory-size parser *)

Section MemoryOption.

(** [size_t] holds at least 32 bits. *)
Hypothesis kBitsPerSizeT_min : 32 <= kBitsPerSizeT.

Lemma size_space_large : 4294967296 <= 2 ^ kBitsPerSizeT.
Proof.
  change 4294967296 with (2 ^ 32).
  apply Z.pow_le_mono_r; lia.
Qed.

Lemma SIZE_MAX_clamped :
  Z.land SIZE_MAX (Z.lnot (1024 - 1)) = 2 ^ kBitsPerSizeT - 1024.
Proof.
  unfold SIZE_MAX. rewrite <- Z.ldiff_land.
  rewrite <- Z.sub_nocarry_ldiff.
  - change (1024 - 1) with 1023. lia.
  - replace (2 ^ kBitsPerSizeT - 1) with (Z.ones kBitsPerSizeT)
      by (rewrite Z.ones_equiv; lia).
    apply Z.ldiff_ones_r_low; [lia|].
    change (Z.log2 (1024 - 1)) with 9. lia.
Qed.

Lemma isdigit_value (c : ascii) :
  isdigit c = true -> 0 <= digit_value c <= 9.
Proof.
  unfold isdigit, digit_value. intros Hc.
  apply andb_prop in Hc as [Hlo Hhi]. apply Z.leb_le in Hlo, Hhi. lia.
Qed.

Lemma isdigit_not_NUL (c : ascii) : isdigit c = true -> Ascii.eqb c NUL = false.
Proof.
  intros Hc. destruct (Ascii.eqb_spec c NUL) as [->|]; [discriminate|reflexivity].
Qed.

Lemma scan_digits_nonneg (s : string) (acc : Z) :
  0 <= acc -> 0 <= fst (scan_digits s acc).
Proof.
  revert acc. induction s as [|c rest IH]; intros acc Hacc; cbn [scan_digits].
  - exact Hacc.
  - destruct (isdigit c) eqn:Hc; [|exact Hacc].
    apply IH. pose proof (isdigit_value c Hc). lia.
Qed.

Lemma scan_digits_stops (s : string) (acc : Z) :
  isdigit (deref (snd (scan_digits s acc))) = false.
Proof.
  revert acc. induction s as [|c rest IH]; intros acc; cbn [scan_digits].
  - reflexivity.
  - destruct (isdigit c) eqn:Hc; [apply IH | exact Hc].
Qed.

Lemma scan_digits_split (s : string) (acc : Z) :
  exists digits,
    s = (digits ++ snd (scan_digits s acc))%string
    /\ all_digits digits = true.
Proof.
  revert acc. induction s as [|c rest IH]; intros acc; cbn [scan_digits].
  - now exists EmptyString.
  - destruct (isdigit c) eqn:Hc.
    + destruct (IH (acc * 10 + digit_value c)) as (digits & Hsplit & Hall).
      exists (String c digits). cbn [append all_digits].
      rewrite Hc, Hall. split; [now rewrite <- Hsplit | reflexivity].
    + now exists EmptyString.
Qed.

Lemma scan_digits_consumes (s : string) (acc : Z) :
  (String.length (snd (scan_digits s acc)) <= String.length s)%nat
  /\ (isdigit (deref s) = true ->
      String.length (snd (scan_digits s acc)) < String.length s)%nat.
Proof.
  revert acc. induction s as [|c rest IH]; intros acc;
    cbn [scan_digits deref].
  - cbn. split; [lia | discriminate].
  - destruct (isdigit c) eqn:Hc; cbn [snd String.length].
    + destruct (IH (acc * 10 + digit_value c)) as [Hle _]. lia.
    + split; [lia | discriminate].
Qed.


Lemma multiplier_some (c : ascii) (mul : Z) :
  multiplier c = Some mul ->
  Ascii.eqb c NUL = false ->
  In (c, mul) size_suffixes.
Proof.
  unfold multiplier, size_suffixes. intros Hmul Hnul. rewrite Hnul in Hmul.
  destruct (Ascii.eqb_spec c "k") as [->|_];
    [injection Hmul as <-; cbn [In]; auto 10|].
  destruct (Ascii.eqb_spec c "K") as [->|_];
    [injection Hmul as <-; cbn [In]; auto 10|].
  destruct (Ascii.eqb_spec c "m") as [->|_];
    [injection Hmul as <-; cbn [In]; auto 10|].
  destruct (Ascii.eqb_spec c "M") as [->|_];
    [injection Hmul as <-; cbn [In]; auto 10|].
  destruct (Ascii.eqb_spec c "g") as [->|_];
    [injection Hmul as <-; cbn [In]; auto 10|].
  destruct (Ascii.eqb_spec c "G") as [->|_];
    [injection Hmul as <-; cbn [In]; auto 10|].
  discriminate Hmul.
Qed.

Lemma size_suffixes_multiplier (c : ascii) (mul : Z) :
  In (c, mul) size_suffixes ->
  multiplier c = Some mul
  /\ Ascii.eqb c NUL = false
  /\ isdigit c = false
  /\ exists k, 0 < k /\ mul = 1024 * k.
Proof.
  unfold size_suffixes. cbn [In].
  intros [H|[H|[H|[H|[H|[H|[]]]]]]]; injection H as <- <-;
    (repeat split; [reflexivity..|]).
  1,2: exists 1; split; [lia | reflexivity].
  1,2: exists 1024; split; [lia | reflexivity].
  1,2: exists (1024 * 1024); split; [lia | reflexivity].
Qed.

Lemma ParseMemoryOption_after_digit (s : string) (div : Z) :
  isdigit (deref s) = true ->
  ParseMemoryOption s div =
  let val := Z.min (fst (scan_digits s 0)) SIZE_MAX in
  let s2 := snd (scan_digits s 0) in
  match
    (if negb (Ascii.eqb (deref s2) NUL)
     then if Ascii.eqb (deref (advance s2)) NUL
          then match multiplier (deref s2) with
               | Some mul => Some (if val <=? SIZE_MAX / mul
                                   then val * mul
                                   else 2 ^ kBitsPerSizeT - 1024)
               | None => None
               end
          else None
     else Some val)
  with
  | Some val => if val mod div =? 0 then val else 0
  | None => 0
  end.
Proof.
  intros Hdigit. unfold ParseMemoryOption, strtoul. rewrite Hdigit.
  destruct (scan_digits_consumes s 0) as [_ Hlt]. specialize (Hlt Hdigit).
  destruct (scan_digits s 0) as [value rest]. cbn [fst snd] in *.
  apply Nat.lt_neq, Nat.eqb_neq in Hlt. rewrite Hlt. cbn [negb].
  now rewrite SIZE_MAX_clamped.
Qed.

Lemma accepted_value (val div : Z) :
  0 <= val <= SIZE_MAX ->
  0 <= (if val mod div =? 0 then val else 0) <= SIZE_MAX
  /\ (if val mod div =? 0 then val else 0) mod div = 0.
Proof.
  intros Hval. pose proof size_space_large. unfold SIZE_MAX in *.
  destruct (Z.eqb_spec (val mod div) 0) as [Hdiv|_].
  - now split.
  - split; [lia | apply Zmod_0_l].
Qed.

(** Whatever the string, the parser returns a [size_t] that is a
    multiple of [div]; zero, the failure value, is one. *)
Theorem ParseMemoryOption_multiple_of_div (s : string) (div : Z) :
  0 < div ->
  0 <= ParseMemoryOption s div <= SIZE_MAX
  /\ ParseMemoryOption s div mod div = 0.
Proof.
  intros Hdiv. pose proof size_space_large as Hw.
  destruct (isdigit (deref s)) eqn:Hdigit.
  - rewrite (ParseMemoryOption_after_digit s div Hdigit). cbv zeta.
    pose proof (scan_digits_nonneg s 0 (Z.le_refl 0)) as Hvalue.
    set (val := Z.min (fst (scan_digits s 0)) SIZE_MAX).
    assert (0 <= val <= SIZE_MAX) as Hval by (unfold val, SIZE_MAX; lia).
    destruct (negb (Ascii.eqb (deref (snd (scan_digits s 0))) NUL)) eqn:Hnul;
      [|now apply accepted_value].
    destruct (Ascii.eqb (deref (advance (snd (scan_digits s 0)))) NUL);
      [|split; [unfold SIZE_MAX; lia | apply Zmod_0_l]].
    destruct (multiplier (deref (snd (scan_digits s 0)))) as [mul|] eqn:Hmul;
      [|split; [unfold SIZE_MAX; lia | apply Zmod_0_l]].
    apply negb_true_iff in Hnul.
    destruct (size_suffixes_multiplier _ _ (multiplier_some _ _ Hmul Hnul))
      as (_ & _ & _ & k & Hk & ->).
    apply accepted_value.
    destruct (Z.leb_spec val (SIZE_MAX / (1024 * k))) as [Hfits|_].
    + pose proof (Z.mul_div_le SIZE_MAX (1024 * k) ltac:(lia)). nia.
    + unfold SIZE_MAX. lia.
  - unfold ParseMemoryOption. rewrite Hdigit.
    split; [unfold SIZE_MAX; lia | apply Zmod_0_l].
Qed.


Lemma c_str_at_NUL (s : string) :
  Ascii.eqb (deref s) NUL = true -> c_str s = EmptyString.
Proof.
  destruct s as [|c rest]; cbn [deref c_str]; [reflexivity|].
  now intros ->.
Qed.

Lemma c_str_after_digits (digits rest : string) :
  all_digits digits = true ->
  c_str (digits ++ rest) = (digits ++ c_str rest)%string.
Proof.
  induction digits as [|c digits IH]; cbn [all_digits append c_str];
    [reflexivity|].
  intros Hall. apply andb_prop in Hall as [Hc Hall].
  now rewrite (isdigit_not_NUL c Hc), IH.
Qed.

(** A nonzero result is only ever returned for a string of the
    documented syntax: one or more decimal digits, then nothing or a
    single multiplier character. *)
Theorem ParseMemoryOption_accepts_only_size_syntax (s : string) (div : Z) :
  ParseMemoryOption s div <> 0 -> has_size_syntax s.
Proof.
  intros Hnonzero.
  destruct (isdigit (deref s)) eqn:Hdigit;
    [|unfold ParseMemoryOption in Hnonzero; rewrite Hdigit in Hnonzero;
      now elim Hnonzero].
  rewrite (ParseMemoryOption_after_digit s div Hdigit) in Hnonzero.
  cbv zeta in Hnonzero.
  destruct (scan_digits_split s 0) as (digits & Hsplit & Hall).
  pose proof (scan_digits_stops s 0) as Hstop.
  set (s2 := snd (scan_digits s 0)) in *.
  assert (digits <> EmptyString) as Hsome.
  { intros ->. cbn [append] in Hsplit. rewrite <- Hsplit in Hstop.
    rewrite Hstop in Hdigit. discriminate Hdigit. }
  exists digits.
  destruct (Ascii.eqb (deref s2) NUL) eqn:Hnul; cbn [negb] in Hnonzero.
  - exists EmptyString. repeat split; try assumption; [|now left].
    now rewrite Hsplit, (c_str_after_digits _ _ Hall), (c_str_at_NUL _ Hnul).
  - destruct (Ascii.eqb (deref (advance s2)) NUL) eqn:Hend;
      [|now elim Hnonzero].
    destruct (multiplier (deref s2)) as [mul|] eqn:Hmul;
      [|now elim Hnonzero].
    exists (String (deref s2) EmptyString).
    repeat split; try assumption.
    + rewrite Hsplit, (c_str_after_digits _ _ Hall). f_equal.
      destruct s2 as [|c rest]; [discriminate Hnul|].
      cbn [deref advance c_str] in *.
      now rewrite Hnul, (c_str_at_NUL _ Hend).
    + right. exists (deref s2), mul. split; [reflexivity|].
      now apply multiplier_some.
Qed.

Lemma scan_digits_decimal (d : Decimal.uint) (rest : string) (acc : Z) :
  isdigit (deref rest) = false ->
  scan_digits (NilEmpty.string_of_uint d ++ rest) acc
  = (acc * Z.of_N (10 ^ DecimalPos.Unsigned.usize d)
     + Z.of_N (DecimalPos.Unsigned.of_lu (Decimal.rev d)), rest).
Proof.
  intros Hrest. revert acc.
  induction d as [|d IH|d IH|d IH|d IH|d IH|d IH|d IH|d IH|d IH|d IH];
    intros acc;
    cbn [NilEmpty.string_of_uint append scan_digits
         DecimalPos.Unsigned.usize].
  1: { destruct rest as [|c rest]; cbn [scan_digits deref] in *;
       [|rewrite Hrest]; f_equal; cbn; lia. }
  all: match goal with
       | |- context [isdigit ?c] => change (isdigit c) with true; cbv iota
       end;
       rewrite IH; f_equal;
       match goal with
       | |- context [Decimal.rev (?D ?x)] =>
           change (Decimal.rev (D x))
             with (Decimal.revapp x (D Decimal.Nil));
           rewrite (DecimalPos.Unsigned.of_lu_revapp x (D Decimal.Nil));
           let v := eval vm_compute in
                    (DecimalPos.Unsigned.of_lu (D Decimal.Nil)) in
           change (DecimalPos.Unsigned.of_lu (D Decimal.Nil)) with v
       end;
       match goal with
       | |- context [digit_value ?c] =>
           let v := eval vm_compute in (digit_value c) in
           change (digit_value c) with v
       end;
       rewrite N.pow_succ_r', !N2Z.inj_add, !N2Z.inj_mul;
       cbn [Z.of_N]; ring.
Qed.

Lemma decimal_starts_with_digit (n : N) (rest : string) :
  isdigit (deref (decimal n ++ rest)) = true.
Proof.
  unfold decimal.
  assert (N.to_uint n <> Decimal.Nil) as Hsome.
  { destruct n as [|p]; cbn [N.to_uint]; [discriminate|].
    apply DecimalPos.Unsigned.to_uint_nonnil. }
  destruct (N.to_uint n); [now elim Hsome|reflexivity..].
Qed.

Lemma scan_digits_of_decimal (n : N) (rest : string) :
  isdigit (deref rest) = false ->
  scan_digits (decimal n ++ rest) 0 = (Z.of_N n, rest).
Proof.
  intros Hrest. unfold decimal.
  rewrite (scan_digits_decimal _ _ 0 Hrest). f_equal.
  rewrite <- DecimalPos.Unsigned.of_uint_alt.
  change (Pos.of_uint (N.to_uint n)) with (N.of_uint (N.to_uint n)).
  now rewrite DecimalN.Unsigned.of_to.
Qed.


Lemma append_empty_r (s : string) : (s ++ EmptyString)%string = s.
Proof. induction s as [|c s IH]; cbn [append]; [reflexivity | now rewrite IH]. Qed.

Lemma fits_before_scaling (n mul : Z) :
  0 <= n -> 2 <= mul ->
  (Z.min n SIZE_MAX <=? SIZE_MAX / mul) = (n * mul <=? SIZE_MAX)
  /\ (n * mul <= SIZE_MAX -> Z.min n SIZE_MAX * mul = n * mul).
Proof.
  intros Hn Hmul. pose proof size_space_large as Hw.
  assert (0 < SIZE_MAX) as Hmax by (unfold SIZE_MAX; lia).
  pose proof (Z.mul_div_le SIZE_MAX mul ltac:(lia)) as Hdown.
  pose proof (Z.mul_succ_div_gt SIZE_MAX mul ltac:(lia)) as Hup.
  split.
  - destruct (Z.leb_spec (n * mul) SIZE_MAX) as [Hfits|Hover].
    + apply Z.leb_le. nia.
    + apply Z.leb_gt. destruct (Z.le_gt_cases n SIZE_MAX); nia.
  - intros Hfits. replace (Z.min n SIZE_MAX) with n by nia. reflexivity.
Qed.

(** Printing a number in decimal and parsing it back with a positive
    [div]: the parser returns the number, capped at the largest
    [size_t], when [div] divides that value, and zero otherwise. *)
Theorem ParseMemoryOption_decimal (n : N) (div : Z) :
  0 < div ->
  ParseMemoryOption (decimal n) div
  = let val := Z.min (Z.of_N n) SIZE_MAX in
    if val mod div =? 0 then val else 0.
Proof.
  intros _.
  rewrite <- (append_empty_r (decimal n)).
  rewrite (ParseMemoryOption_after_digit _ _
             (decimal_starts_with_digit n EmptyString)).
  now rewrite (scan_digits_of_decimal n EmptyString eq_refl).
Qed.

Lemma ParseMemoryOption_scaled_eq (n : N) (c : ascii) (mul div : Z) :
  In (c, mul) size_suffixes ->
  ParseMemoryOption (decimal n ++ String c EmptyString) div
  = let val := if Z.of_N n * mul <=? SIZE_MAX
               then Z.of_N n * mul
               else 2 ^ kBitsPerSizeT - 1024 in
    if val mod div =? 0 then val else 0.
Proof.
  intros Hsuffix.
  destruct (size_suffixes_multiplier c mul Hsuffix)
    as (Hmul & Hnul & Hnot_digit & k & Hk & Hmul_eq).
  rewrite (ParseMemoryOption_after_digit _ _
             (decimal_starts_with_digit n (String c EmptyString))).
  rewrite (scan_digits_of_decimal n (String c EmptyString) Hnot_digit).
  cbn [fst snd deref advance]. rewrite Hnul, Hmul. cbn [negb].
  change (Ascii.eqb NUL NUL) with true. cbv iota zeta.
  destruct (fits_before_scaling (Z.of_N n) mul (N2Z.is_nonneg n)
              ltac:(lia)) as [Htest Hvalue].
  rewrite Htest.
  destruct (Z.leb_spec (Z.of_N n * mul) SIZE_MAX) as [Hfits|_];
    [now rewrite (Hvalue Hfits) | reflexivity].
Qed.

(** A decimal number followed by one multiplier character, parsed with
    a positive [div]: the parser returns the product when it fits a
    [size_t], and the largest multiple of 1024 that does when it does
    not, provided [div] divides that value; zero otherwise. *)
Theorem ParseMemoryOption_decimal_scaled
    (n : N) (c : ascii) (mul div : Z) :
  0 < div ->
  In (c, mul) size_suffixes ->
  ParseMemoryOption (decimal n ++ String c EmptyString) div
  = let val := if Z.of_N n * mul <=? SIZE_MAX
               then Z.of_N n * mul
               else 2 ^ kBitsPerSizeT - 1024 in
    if val mod div =? 0 then val else 0.
Proof. intros _. exact (ParseMemoryOption_scaled_eq n c mul div). Qed.

(** The heap options are parsed with [div = 1024]: there a number with
    a multiplier character always parses, as the product saturated at the
    largest multiple of 1024 that fits a [size_t]. *)
Theorem ParseMemoryOption_heap_size_saturates
    (n : N) (c : ascii) (mul : Z) :
  In (c, mul) size_suffixes ->
  ParseMemoryOption (decimal n ++ String c EmptyString) 1024
  = Z.min (Z.of_N n * mul) (2 ^ kBitsPerSizeT - 1024).
Proof.
  intros Hsuffix.
  rewrite (ParseMemoryOption_scaled_eq n c mul 1024 Hsuffix).
  destruct (size_suffixes_multiplier c mul Hsuffix)
    as (_ & _ & _ & k & Hk & ->).
  cbv zeta.
  assert (2 ^ kBitsPerSizeT = 1024 * 2 ^ (kBitsPerSizeT - 10)) as Hpow.
  { change 1024 with (2 ^ 10). rewrite <- Z.pow_add_r by lia.
    f_equal. lia. }
  pose proof (N2Z.is_nonneg n) as Hn.
  set (v := Z.of_N n) in *. set (P := 2 ^ (kBitsPerSizeT - 10)) in *.
  unfold SIZE_MAX. rewrite Hpow.
  destruct (Z.leb_spec (v * (1024 * k)) (1024 * P - 1)) as [Hfits|Hover].
  - replace (v * (1024 * k)) with (v * k * 1024) by ring.
    rewrite Z.mod_mul, Z.eqb_refl by lia. nia.
  - replace (1024 * P - 1024) with ((P - 1) * 1024) by ring.
    rewrite Z.mod_mul, Z.eqb_refl by lia. nia.
Qed.


(** Leading zeros do not matter: putting a zero in front of a string
    that starts with a digit changes nothing. *)
Theorem ParseMemoryOption_leading_zero (s : string) (div : Z) :
  isdigit (deref s) = true ->
  ParseMemoryOption (String "0" s) div = ParseMemoryOption s div.
Proof.
  intros Hdigit.
  rewrite (ParseMemoryOption_after_digit (String "0" s) div eq_refl).
  rewrite (ParseMemoryOption_after_digit s div Hdigit).
  reflexivity.
Qed.

End MemoryOption.

End Platform.

(** ** The checked methods evaluated on concrete headers *)

(** The scenario of the spec on the tagging architecture. *)
Example scenario_on_arm :
  GetEntryPoint kArm 32 scenario_header = 0x1001
  /\ GetOptimizedCodeInfoPtr 32 true scenario_header = Returns 0x0FF0
  /\ Contains kArm 32 scenario_header 0x1100 = Returns true
  /\ NativeQuickPcOffset kArm 32 scenario_header 0x1011 = 0x10.
Proof. repeat split. Qed.

(** The same header on an architecture without tagging. *)
Example scenario_on_x86 :
  GetEntryPoint kX86 32 scenario_header = 0x1000
  /\ Contains kX86 32 scenario_header 0x1100 = Returns true
  /\ Contains kX86 32 scenario_header 0x1101 = Returns false
  /\ FromCodePointer kX86 32 true (fun _ => 16) 0x1000 = Returns 0xFF8.
Proof. repeat split. Qed.

(** C1, the claim as written fails: the two headers below have the same
    masked code-size field (all 31 size bits set), yet [GetCodeSize]
    returns on one and aborts on the other, so no value of the masked
    field characterises the abort. *)
Lemma GetCodeSize_masked_field_counterexample :
  Z.land (code_size_ full_size_header) kCodeSizeMask = 0x7FFFFFFF
  /\ Z.land (code_size_ stub_header) kCodeSizeMask = 0x7FFFFFFF
  /\ GetCodeSize full_size_header = Returns 0x7FFFFFFF
  /\ GetCodeSize stub_header = Aborts
  /\ ~ (exists sentinel, forall h,
          GetCodeSize h = Aborts
          <-> Z.land (code_size_ h) kCodeSizeMask = sentinel).
Proof.
  repeat split.
  intros [sentinel Hclaim].
  pose proof (proj1 (Hclaim stub_header) eq_refl) as Hstub.
  pose proof (proj2 (Hclaim full_size_header)) as Hfull.
  rewrite <- Hstub in Hfull.
  specialize (Hfull eq_refl). discriminate Hfull.
Qed.

Lemma GetCodeSize_aborts_iff_raw_all_ones_witness :
  code_size_ scenario_header <> 0xFFFFFFFF
  /\ GetCodeSize scenario_header = Returns 0x100.
Proof.
  assert (code_size_ scenario_header <> 0xFFFFFFFF) as Hne
    by (vm_compute; discriminate).
  split; [exact Hne|].
  exact (proj2 (GetCodeSize_aborts_iff_raw_all_ones scenario_header) Hne).
Defined.

(** C2, the claim as written fails: with all 31 size bits set and the
    flag clear, [GetCodeSize] returns, but setting the flag turns the
    word into [0xFFFFFFFF] and [GetCodeSize] aborts from then on. *)
Lemma SetHasShouldDeoptimizeFlag_full_size_counterexample :
  GetCodeSize full_size_header = Returns 0x7FFFFFFF
  /\ SetHasShouldDeoptimizeFlag true full_size_header = Returns stub_header
  /\ SetHasShouldDeoptimizeFlag false full_size_header = Returns stub_header
  /\ GetCodeSize stub_header = Aborts.
Proof. repeat split. Qed.

Lemma SetHasShouldDeoptimizeFlag_keeps_code_size_witness :
  is_uint32 (code_size_ scenario_header) = true
  /\ GetCodeSize scenario_header = Returns 0x100
  /\ code_size_ scenario_header <> 0x7FFFFFFF
  /\ (forall h', SetHasShouldDeoptimizeFlag true scenario_header = Returns h' ->
                 GetCodeSize h' = Returns 0x100)
  /\ (HasShouldDeoptimizeFlag scenario_header = false ->
      exists h', SetHasShouldDeoptimizeFlag true scenario_header = Returns h')
  /\ HasShouldDeoptimizeFlag (clear_code_size_bits scenario_header)
     = HasShouldDeoptimizeFlag scenario_header.
Proof.
  assert (code_size_ scenario_header <> 0x7FFFFFFF) as Hne
    by (vm_compute; discriminate).
  split; [reflexivity|]. split; [reflexivity|]. split; [exact Hne|].
  exact (SetHasShouldDeoptimizeFlag_keeps_code_size
           true scenario_header 0x100 eq_refl eq_refl Hne).
Defined.

Lemma IsOptimized_iff_size_and_offset_nonzero_witness :
  GetCodeSize scenario_header = Returns 0x100
  /\ exists b, IsOptimized scenario_header = Returns b
               /\ (b = true <->
                   0x100 <> 0 /\ vmap_table_offset_ scenario_header <> 0).
Proof.
  split; [reflexivity|].
  exact (IsOptimized_iff_size_and_offset_nonzero scenario_header 0x100 eq_refl).
Defined.

(** C3, the claim as written fails twice over: on a stub header the
    query at the code start aborts instead of returning true, and for
    code placed so high that start plus size wraps around, the query at
    the code start returns false. *)
Lemma Contains_inclusive_bounds_counterexample :
  adjusted_code_start kX86 32 stub_header = 0x1000
  /\ Z.land (code_size_ stub_header) kCodeSizeMask = 0x7FFFFFFF
  /\ Contains kX86 32 stub_header 0x1000 = Aborts
  /\ adjusted_code_start kX86 32 top_of_memory_header = 0xFFFFFF00
  /\ GetCodeSize top_of_memory_header = Returns 0x200
  /\ Contains kX86 32 top_of_memory_header 0xFFFFFF00 = Returns false.
Proof. repeat split. Qed.

Lemma Contains_inclusive_bounds_witness :
  GetCodeSize scenario_header = Returns 0x100
  /\ adjusted_code_start kArm 32 scenario_header + 0x100 < 2 ^ 32
  /\ (forall pc, Contains kArm 32 scenario_header pc
                 = Returns ((0x1001 <=? pc) && (pc <=? 0x1101)))
  /\ Contains kArm 32 scenario_header 0x1001 = Returns true
  /\ Contains kArm 32 scenario_header 0x1101 = Returns true
  /\ Contains kArm 32 scenario_header 0x1000 = Returns false
  /\ Contains kArm 32 scenario_header 0x1102 = Returns false.
Proof.
  split; [reflexivity|]. split; [reflexivity|].
  exact (Contains_inclusive_bounds kArm 32 (Z.le_refl 32)
           scenario_header 0x100 eq_refl eq_refl).
Defined.

Lemma FromEntryPoint_GetEntryPoint_round_trip_witness :
  Z.even 8 = true
  /\ is_uintptr 32 0x1000 = true
  /\ IsAlignedParam 0x1000 8 || IsAlignedParam (wrap 32 (0x1000 - kCodeOffset)) 8
     = true
  /\ FromCodePointer kArm 32 true (fun _ => 8) 0x1000
     = Returns (header_address scenario_header)
  /\ code_ 32 scenario_header = 0x1000
  /\ GetEntryPoint kArm 32 scenario_header = 0x1001
  /\ EntryPointToCodePointer 32 (GetEntryPoint kArm 32 scenario_header)
     = 0x1000
  /\ FromEntryPoint kArm 32 true (fun _ => 8)
                    (GetEntryPoint kArm 32 scenario_header)
     = Returns (header_address scenario_header).
Proof.
  split; [reflexivity|]. split; [reflexivity|]. split; [reflexivity|].
  destruct (FromEntryPoint_GetEntryPoint_round_trip
              kArm 32 true (fun _ => 8) (Z.le_refl 32) 0x1000
              eq_refl eq_refl eq_refl)
    as (header & Hfrom & Hround).
  assert (header = header_address scenario_header) as ->
    by (injection Hfrom as <-; reflexivity).
  destruct (Hround scenario_header eq_refl)
    as (Hcode & Harm & _ & Huntag & Hback).
  split; [exact Hfrom|]. split; [exact Hcode|].
  split; [exact (proj2 (Harm eq_refl))|].
  split; [exact Huntag | exact Hback].
Defined.

(** C6, the claim as written fails: with DCHECKs compiled out, both
    overloads return an address for a header that is not optimized. *)
Lemma GetOptimizedCodeInfoPtr_unchecked_counterexample :
  IsOptimized no_info_header = Returns false
  /\ GetOptimizedCodeInfoPtr 32 false no_info_header = Returns 0x1000
  /\ GetOptimizedCodeInfoPtr_const 32 false no_info_header = Returns 0x1000.
Proof. repeat split. Qed.

Lemma GetOptimizedCodeInfoPtr_gate_witness :
  (IsOptimized scenario_header = Returns true
   /\ GetOptimizedCodeInfoPtr 32 true scenario_header = Returns 0x0FF0
   /\ GetOptimizedCodeInfoPtr_const 32 true scenario_header = Returns 0x0FF0)
  /\ (IsOptimized no_info_header <> Returns true
      /\ GetOptimizedCodeInfoPtr 32 true no_info_header = Aborts
      /\ GetOptimizedCodeInfoPtr_const 32 true no_info_header = Aborts)
  /\ (GetOptimizedCodeInfoPtr 32 false no_info_header = Returns 0x1000
      /\ GetOptimizedCodeInfoPtr_const 32 false no_info_header
         = Returns 0x1000).
Proof.
  assert (IsOptimized no_info_header <> Returns true) as Hnot
    by (vm_compute; discriminate).
  split; [split; [reflexivity|]|split; [split; [exact Hnot|]|]].
  - exact (proj1 (GetOptimizedCodeInfoPtr_gate 32 true scenario_header)
             eq_refl).
  - exact (proj1 (proj2 (GetOptimizedCodeInfoPtr_gate 32 true no_info_header))
             eq_refl Hnot).
  - exact (proj2 (proj2 (GetOptimizedCodeInfoPtr_gate 32 false no_info_header))
             eq_refl).
Defined.

Lemma NativeQuickPcOffset_from_entry_point_witness :
  header_wf 32 scenario_header = true
  /\ is_uintptr 32 0x1011 = true
  /\ GetEntryPoint kArm 32 scenario_header = 0x1001
  /\ NativeQuickPcOffset kArm 32 scenario_header 0x1011 = 0x1011 - 0x1000 - 1.
Proof.
  split; [reflexivity|]. split; [reflexivity|].
  destruct (NativeQuickPcOffset_from_entry_point kArm 32 (Z.le_refl 32)
              scenario_header 0x1011 eq_refl eq_refl)
    as (_ & _ & Harm & _).
  destruct (Harm eq_refl) as (Hentry & _ & Hinside).
  split; [exact Hentry|].
  exact (Hinside eq_refl).
Defined.

(** C8, the claim as written fails: with DCHECKs compiled out, setting
    a flag that is already set returns and leaves the header as it was. *)
Lemma SetHasShouldDeoptimizeFlag_twice_counterexample :
  HasShouldDeoptimizeFlag flagged_header = true
  /\ SetHasShouldDeoptimizeFlag false flagged_header = Returns flagged_header.
Proof. repeat split. Qed.

Lemma SetHasShouldDeoptimizeFlag_when_already_set_witness :
  HasShouldDeoptimizeFlag flagged_header = true
  /\ SetHasShouldDeoptimizeFlag true flagged_header = Aborts
  /\ SetHasShouldDeoptimizeFlag false flagged_header = Returns flagged_header.
Proof.
  split; [reflexivity|]. split.
  - exact (proj1 (SetHasShouldDeoptimizeFlag_when_already_set
                    true flagged_header eq_refl) eq_refl).
  - exact (proj1 (proj2 (SetHasShouldDeoptimizeFlag_when_already_set
                           false flagged_header eq_refl)) eq_refl).
Defined.

(** C9, the claim as written fails: on a stub header [Contains] returns
    false, without aborting, for a [pc] below the adjusted code start; on
    ARM that includes the code start itself. *)
Lemma stub_header_Contains_counterexample :
  code_size_ stub_header = 0xFFFFFFFF
  /\ Contains kX86 32 stub_header 0x0FFF = Returns false
  /\ code_ 32 stub_header = 0x1000
  /\ Contains kArm 32 stub_header 0x1000 = Returns false.
Proof. repeat split. Qed.

Lemma stub_header_queries_witness :
  code_size_ stub_header = 0xFFFFFFFF
  /\ GetCodeSize stub_header = Aborts
  /\ IsOptimized stub_header = Aborts
  /\ Contains kX86 32 stub_header 0x1000 = Aborts
  /\ Contains kX86 32 stub_header 0x0FFF = Returns false.
Proof.
  destruct (stub_header_queries kX86 32 stub_header eq_refl)
    as (Hsize & Hopt & Habove & Hbelow).
  split; [reflexivity|]. split; [exact Hsize|]. split; [exact Hopt|].
  split; [apply Habove | apply Hbelow]; vm_compute; congruence.
Defined.

Lemma GetVmapTable_legacy_accessor_witness :
  (IsOptimized scenario_header = Returns true
   /\ GetVmapTable 32 scenario_header = Aborts)
  /\ (IsOptimized no_info_header = Returns false
      /\ vmap_table_offset_ no_info_header = 0
      /\ GetVmapTable 32 no_info_header = Returns nullptr)
  /\ (IsOptimized empty_code_header = Returns false
      /\ vmap_table_offset_ empty_code_header <> 0
      /\ GetVmapTable 32 empty_code_header = Returns 0x0FF0).
Proof.
  assert (vmap_table_offset_ empty_code_header <> 0) as Hoff
    by (vm_compute; discriminate).
  split; [split; [reflexivity|]|split; [split; [reflexivity|split;
    [reflexivity|]]|split; [reflexivity|split; [exact Hoff|]]]].
  - exact (proj1 (GetVmapTable_legacy_accessor 32 scenario_header) eq_refl).
  - exact (proj1 (proj2 (GetVmapTable_legacy_accessor 32 no_info_header))
             eq_refl eq_refl).
  - exact (proj2 (proj2 (GetVmapTable_legacy_accessor 32 empty_code_header))
             eq_refl Hoff).
Defined.

(** ** The further properties at concrete inputs *)

Lemma code_size_word_is_size_plus_flag_witness :
  is_uint32 (code_size_ flagged_header) = true
  /\ GetCodeSize flagged_header = Returns 0x100
  /\ 0 <= 0x100 < kShouldDeoptimizeMask
  /\ code_size_ flagged_header
     = 0x100 + (if HasShouldDeoptimizeFlag flagged_header
                then kShouldDeoptimizeMask else 0).
Proof.
  split; [reflexivity|]. split; [reflexivity|].
  exact (code_size_word_is_size_plus_flag flagged_header 0x100
           eq_refl eq_refl).
Defined.

Lemma SetHasShouldDeoptimizeFlag_sets_flag_once_witness :
  SetHasShouldDeoptimizeFlag true scenario_header = Returns flagged_header
  /\ HasShouldDeoptimizeFlag flagged_header = true
  /\ HasShouldDeoptimizeFlag scenario_header = false
  /\ SetHasShouldDeoptimizeFlag true flagged_header = Aborts.
Proof.
  split; [reflexivity|].
  destruct (SetHasShouldDeoptimizeFlag_sets_flag_once
              true scenario_header flagged_header eq_refl)
    as (Hset & _ & _ & Hchecked & _).
  split; [exact Hset|]. exact (Hchecked eq_refl).
Defined.

Lemma SetHasShouldDeoptimizeFlag_keeps_queries_witness :
  is_uint32 (code_size_ scenario_header) = true
  /\ code_size_ scenario_header <> 0x7FFFFFFF
  /\ SetHasShouldDeoptimizeFlag true scenario_header = Returns flagged_header
  /\ IsOptimized flagged_header = IsOptimized scenario_header
  /\ (forall pc, Contains kArm 32 flagged_header pc
                 = Contains kArm 32 scenario_header pc)
  /\ GetEntryPoint kArm 32 flagged_header
     = GetEntryPoint kArm 32 scenario_header
  /\ GetVmapTable 32 flagged_header = GetVmapTable 32 scenario_header
  /\ GetOptimizedCodeInfoPtr 32 true flagged_header
     = GetOptimizedCodeInfoPtr 32 true scenario_header.
Proof.
  assert (code_size_ scenario_header <> 0x7FFFFFFF) as Hne
    by (vm_compute; discriminate).
  split; [reflexivity|]. split; [exact Hne|]. split; [reflexivity|].
  exact (SetHasShouldDeoptimizeFlag_keeps_queries kArm 32 true
           scenario_header flagged_header eq_refl Hne eq_refl).
Defined.

Lemma blob_accessors_exclusive_witness :
  code_size_ empty_code_header <> 0xFFFFFFFF
  /\ code_size_ scenario_header <> 0xFFFFFFFF
  /\ (IsOptimized empty_code_header = Returns false
      /\ GetOptimizedCodeInfoPtr 32 true empty_code_header = Aborts
      /\ GetVmapTable 32 empty_code_header = Returns 0x0FF0)
  /\ (IsOptimized scenario_header = Returns true
      /\ GetOptimizedCodeInfoPtr 32 true scenario_header = Returns 0x0FF0
      /\ GetVmapTable 32 scenario_header = Aborts).
Proof.
  assert (code_size_ empty_code_header <> 0xFFFFFFFF) as Hempty
    by (vm_compute; discriminate).
  assert (code_size_ scenario_header <> 0xFFFFFFFF) as Hscenario
    by (vm_compute; discriminate).
  split; [exact Hempty|]. split; [exact Hscenario|]. split.
  - destruct (proj2 (blob_accessors_exclusive 32 true empty_code_header)
                eq_refl Hempty) as [(Hopt & _)|Hunopt];
      [discriminate Hopt | exact Hunopt].
  - destruct (proj2 (blob_accessors_exclusive 32 true scenario_header)
                eq_refl Hscenario) as [Hopt|(Hunopt & _)];
      [exact Hopt | discriminate Hunopt].
Defined.

Lemma SetVmapTableOffset_zero_unoptimizes_witness :
  code_size_ scenario_header <> 0xFFFFFFFF
  /\ IsOptimized (SetVmapTableOffset scenario_header 0) = Returns false
  /\ GetVmapTable 32 (SetVmapTableOffset scenario_header 0) = Returns nullptr
  /\ GetOptimizedCodeInfoPtr 32 true (SetVmapTableOffset scenario_header 0)
     = Aborts
  /\ GetFrameInfo 32 true (fun _ => mkFrameInfo 64 0 0)
                  (SetVmapTableOffset scenario_header 0) = Aborts.
Proof.
  assert (code_size_ scenario_header <> 0xFFFFFFFF) as Hne
    by (vm_compute; discriminate).
  split; [exact Hne|].
  destruct (SetVmapTableOffset_zero_unoptimizes 32 true
              (fun _ => mkFrameInfo 64 0 0) scenario_header Hne)
    as (Hopt & Hvmap & _ & Hchecked).
  split; [exact Hopt|]. split; [exact Hvmap|]. exact (Hchecked eq_refl).
Defined.

Lemma GetFrameSizeInBytes_checked_refines_unchecked_witness :
  GetFrameSizeInBytes 32 true 16 (fun _ => mkFrameInfo 64 0 0)
                      true scenario_header = Returns 64
  /\ GetFrameSizeInBytes 32 true 16 (fun _ => mkFrameInfo 64 0 0)
                         false scenario_header = Returns 64
  /\ IsAlignedParam 64 16 = true
  /\ IsOptimized scenario_header = Returns true.
Proof.
  split; [reflexivity|].
  destruct (proj1 (GetFrameSizeInBytes_checked_refines_unchecked
                     32 true 16 (fun _ => mkFrameInfo 64 0 0)
                     scenario_header) 64 eq_refl)
    as (_ & Hunchecked & Hchecked).
  split; [exact Hunchecked|]. exact (Hchecked eq_refl).
Defined.

Lemma FromCodePointer_GetCode_witness :
  is_uintptr 32 (header_address scenario_header) = true
  /\ IsAlignedParam (GetCode 32 scenario_header) 8
     || IsAlignedParam (header_address scenario_header) 8 = true
  /\ FromCodePointer kArm 32 true (fun _ => 8) (GetCode 32 scenario_header)
     = Returns (header_address scenario_header).
Proof.
  split; [reflexivity|]. split; [reflexivity|].
  exact (proj2 (proj2 (FromCodePointer_GetCode kArm 32 true (fun _ => 8)
                         scenario_header eq_refl)) eq_refl).
Defined.

Lemma FromCodePointer_rejects_odd_pointer_witness :
  Z.even 16 = true
  /\ Z.even 0x1001 = false
  /\ FromCodePointer kX86 32 true (fun _ => 16) 0x1001 = Aborts.
Proof.
  split; [reflexivity|]. split; [reflexivity|].
  exact (FromCodePointer_rejects_odd_pointer kX86 32 true (fun _ => 16)
           (Z.le_refl 32) 0x1001 eq_refl eq_refl eq_refl).
Defined.

Lemma Contains_starts_at_entry_point_witness :
  header_wf 32 scenario_header = true
  /\ GetCodeSize scenario_header = Returns 0x100
  /\ GetEntryPoint kArm 32 scenario_header + 0x100 < 2 ^ 32
  /\ Contains kArm 32 scenario_header (GetEntryPoint kArm 32 scenario_header)
     = Returns true
  /\ Contains kArm 32 scenario_header (GetCode 32 scenario_header)
     = Returns false.
Proof.
  split; [reflexivity|]. split; [reflexivity|]. split; [reflexivity|].
  exact (proj2 (Contains_starts_at_entry_point kArm 32 (Z.le_refl 32)
                  scenario_header 0x100 eq_refl eq_refl eq_refl)).
Defined.

Lemma Contains_bounds_native_offset_witness :
  header_wf 32 scenario_header = true
  /\ GetCodeSize scenario_header = Returns 0x100
  /\ GetEntryPoint kArm 32 scenario_header + 0x100 < 2 ^ 32
  /\ Contains kArm 32 scenario_header 0x1011 = Returns true
  /\ NativeQuickPcOffset kArm 32 scenario_header 0x1011
     = 0x1011 - GetEntryPoint kArm 32 scenario_header
  /\ 0 <= NativeQuickPcOffset kArm 32 scenario_header 0x1011 <= 0x100.
Proof.
  split; [reflexivity|]. split; [reflexivity|]. split; [reflexivity|].
  split; [reflexivity|].
  exact (proj1 (Contains_bounds_native_offset kArm 32 (Z.le_refl 32)
                  scenario_header 0x100 0x1011 eq_refl eq_refl eq_refl)
           eq_refl).
Defined.

Lemma NativeQuickPcOffset_round_trip_witness :
  is_uintptr 32 0x1011 = true
  /\ wrap 32 (GetEntryPoint kArm 32 scenario_header
              + NativeQuickPcOffset kArm 32 scenario_header 0x1011) = 0x1011
  /\ NativeQuickPcOffset kArm 32 scenario_header
       (wrap 32 (GetEntryPoint kArm 32 scenario_header + 0x1011)) = 0x1011.
Proof.
  split; [reflexivity|].
  destruct (NativeQuickPcOffset_round_trip kArm 32 scenario_header)
    as [Hback Hforth].
  split; [exact (Hback 0x1011 eq_refl) | exact (Hforth 0x1011 eq_refl)].
Defined.

Lemma GetEntryPoint_tag_bit_witness :
  is_uintptr 32 (GetEntryPoint kArm 32 scenario_header) = true
  /\ Z.odd (GetEntryPoint kArm 32 scenario_header) = true
  /\ GetCode 32 scenario_header <= GetEntryPoint kArm 32 scenario_header
     <= GetCode 32 scenario_header + 1.
Proof.
  destruct (GetEntryPoint_tag_bit kArm 32 (Z.le_refl 32) scenario_header)
    as (Hptr & Harm & _).
  split; [exact Hptr|]. exact (Harm eq_refl).
Defined.

Lemma stored_words_precede_code_witness :
  is_uintptr 32 (header_address scenario_header) = true
  /\ header_address scenario_header + kCodeOffset < 2 ^ 32
  /\ GetVmapTableOffsetAddr 32 scenario_header = 0x0FF8
  /\ GetCodeSizeAddr 32 scenario_header
     = GetVmapTableOffsetAddr 32 scenario_header + 4
  /\ GetCode 32 scenario_header = GetCodeSizeAddr 32 scenario_header + 4.
Proof.
  split; [reflexivity|]. split; [reflexivity|].
  destruct (stored_words_precede_code 32 scenario_header eq_refl)
    as (Hfirst & _ & _ & Hapart).
  split; [exact Hfirst|]. exact (Hapart eq_refl).
Defined.

Lemma ParseMemoryOption_multiple_of_div_witness :
  0 < 1024
  /\ 0 <= ParseMemoryOption 32 "64m" 1024 <= SIZE_MAX 32
  /\ ParseMemoryOption 32 "64m" 1024 mod 1024 = 0.
Proof.
  split; [reflexivity|].
  exact (ParseMemoryOption_multiple_of_div 32 (Z.le_refl 32) "64m" 1024
           eq_refl).
Defined.

Lemma ParseMemoryOption_accepts_only_size_syntax_witness :
  ParseMemoryOption 32 "64m" 1024 <> 0 /\ has_size_syntax "64m".
Proof.
  assert (ParseMemoryOption 32 "64m" 1024 <> 0) as Hne
    by (vm_compute; discriminate).
  split; [exact Hne|].
  exact (ParseMemoryOption_accepts_only_size_syntax 32 (Z.le_refl 32)
           "64m" 1024 Hne).
Defined.

Lemma ParseMemoryOption_decimal_witness :
  32 <= 32
  /\ 0 < 1024
  /\ decimal 4096 = "4096"%string
  /\ ParseMemoryOption 32 "4096" 1024 = 4096.
Proof.
  split; [exact (Z.le_refl 32)|]. split; [reflexivity|].
  split; [reflexivity|].
  exact (ParseMemoryOption_decimal 32 (Z.le_refl 32) 4096 1024 eq_refl).
Defined.

Lemma ParseMemoryOption_decimal_scaled_witness :
  0 < 1024
  /\ In ("m"%char, MB) size_suffixes
  /\ ParseMemoryOption 32 "64m" 1024 = 64 * MB.
Proof.
  assert (In ("m"%char, MB) size_suffixes) as Hin
    by (cbn [In size_suffixes]; auto 10).
  split; [reflexivity|]. split; [exact Hin|].
  exact (ParseMemoryOption_decimal_scaled 32 (Z.le_refl 32)
           64 "m" MB 1024 eq_refl Hin).
Defined.

Lemma ParseMemoryOption_heap_size_saturates_witness :
  In ("g"%char, GB) size_suffixes
  /\ ParseMemoryOption 32 "4g" 1024 = 2 ^ 32 - 1024.
Proof.
  assert (In ("g"%char, GB) size_suffixes) as Hin
    by (cbn [In size_suffixes]; auto 10).
  split; [exact Hin|].
  exact (ParseMemoryOption_heap_size_saturates 32 (Z.le_refl 32)
           4 "g" GB Hin).
Defined.

Lemma ParseMemoryOption_leading_zero_witness :
  isdigit (deref "7K") = true
  /\ ParseMemoryOption 32 "07K" 1 = ParseMemoryOption 32 "7K" 1.
Proof.
  split; [reflexivity|].
  exact (ParseMemoryOption_leading_zero 32 (Z.le_refl 32) "7K" 1 eq_refl).
Defined.
